(** * DailyMusic: the daily discovery of a not yet delivered top track

    A shallow embedding of [src/__init__.py] (the [DailyMusic] cog) and the
    proofs of its specification's properties.

    - Python values decoded from JSON are the type [json]; subscripting,
      membership and iteration follow Python on every shape of value and
      raise what Python raises.
    - The SQLite database is a record of its two tables; every statement the
      cog executes is one function on it.
    - A coroutine of the cog is a function in the monad [M], which threads the
      cog's state and stops at the first exception that is raised.
    - The network (Last.fm, Discord) is the record [Env] of what it answers. *)

From Stdlib Require Import List String Ascii ZArith Bool Lia DecimalString.
From Stdlib Require Import Sorting.Sorted.
Import ListNotations.

Local Open Scope string_scope.
Local Open Scope Z_scope.
Local Open Scope list_scope.

#[local] Set Warnings "-register-all".

(** ** Values decoded from JSON *)

(** What [response.json()] returns.  A number is an integer: the cog never
    computes with one, and a number with a fraction is outside the model.
    [JObj] lists the items of a [dict] in insertion order (its keys are
    distinct); [JArr] is a [list]. *)
Inductive json : Type :=
| JNull
| JBool (b : bool)
| JInt (z : Z)
| JStr (s : string)
| JArr (items : list json)
| JObj (members : list (string * json)).

(** A formatted string literal is kept as its pieces: the literal text and the
    values it interpolates with [str()]. *)
Inductive part : Type :=
| Lit (s : string)
| Val (v : json).

Definition fstring := list part.

(** ** Exceptions *)

Inductive exn : Type :=
| NoCredentialsError                (* class NoCredentialsError *)
| APIError (message : fstring)      (* class APIError *)
| ClientResponseError (status : Z)  (* aiohttp: raise_for_status *)
| ClientError                       (* aiohttp: the request itself failed *)
| JSONError                         (* aiohttp: the body is not a JSON document *)
| KeyError (key : string)
| TypeError
| OverflowError                     (* sqlite3: integer beyond 64 bits *)
| BindError                         (* sqlite3: value of an unsupported type *)
| IntegrityError                    (* sqlite3: NOT NULL or PRIMARY KEY violated *)
| DiscordError.                     (* discord: NotFound, HTTPException, ... *)

Inductive result (A : Type) : Type :=
| Ok (a : A)
| Raise (e : exn).

Arguments Ok {A} a.
Arguments Raise {A} e.

Definition failed {A} (r : result A) : Prop := exists e, r = Raise e.

Definition rbind {A B} (r : result A) (k : A -> result B) : result B :=
  match r with
  | Ok a => k a
  | Raise e => Raise e
  end.

(** The text of [NoCredentialsError]: the argument its [__init__] passes to
    [Exception]. *)
Definition NoCredentialsError_text : string :=
  "You need to set your Last.fm username and API key.".

(** ** Python's operations on decoded values *)

Definition decimal (z : Z) : string := NilZero.string_of_int (Z.to_int z).

(** [str(v)] of a scalar.  The text of a list or dict goes through [repr] of
    its members and is left out. *)
Definition py_str (v : json) : option string :=
  match v with
  | JNull => Some "None"
  | JBool true => Some "True"
  | JBool false => Some "False"
  | JInt z => Some (decimal z)
  | JStr s => Some s
  | JArr _ | JObj _ => None
  end.

Fixpoint render (f : fstring) : option string :=
  match f with
  | [] => Some ""
  | Lit s :: f' => option_map (append s) (render f')
  | Val v :: f' =>
      match py_str v, render f' with
      | Some s, Some s' => Some (s ++ s')%string
      | _, _ => None
      end
  end.

Fixpoint lookup (key : string) (members : list (string * json)) : option json :=
  match members with
  | [] => None
  | (k, v) :: members' => if String.eqb key k then Some v else lookup key members'
  end.

Definition has_key (key : string) (members : list (string * json)) : bool :=
  existsb (fun m => String.eqb key (fst m)) members.

(** [key == v] for a string [key]. *)
Definition str_eq (key : string) (v : json) : bool :=
  match v with
  | JStr s => String.eqb key s
  | _ => false
  end.

(** [p in s] for two strings. *)
Fixpoint is_infix (p s : string) : bool :=
  if prefix p s then true
  else match s with
       | EmptyString => false
       | String _ s' => is_infix p s'
       end.

(** [key in v] for a string [key]: key membership in a dict, element
    membership in a list, substring test in a string, TypeError otherwise. *)
Definition py_contains (key : string) (v : json) : result bool :=
  match v with
  | JObj members => Ok (has_key key members)
  | JArr items => Ok (existsb (str_eq key) items)
  | JStr s => Ok (is_infix key s)
  | JNull | JBool _ | JInt _ => Raise TypeError
  end.

(** [v[key]] for a string [key]: only a dict takes one. *)
Definition py_getitem (v : json) (key : string) : result json :=
  match v with
  | JObj members =>
      match lookup key members with
      | Some x => Ok x
      | None => Raise (KeyError key)
      end
  | _ => Raise TypeError
  end.

Fixpoint chars (s : string) : list json :=
  match s with
  | EmptyString => []
  | String c s' => JStr (String c EmptyString) :: chars s'
  end.

(** What [for x in v] goes through: the elements of a list, the keys of a
    dict, the characters of a string. *)
Definition py_iter (v : json) : result (list json) :=
  match v with
  | JArr items => Ok items
  | JObj members => Ok (map (fun m => JStr (fst m)) members)
  | JStr s => Ok (chars s)
  | JNull | JBool _ | JInt _ => Raise TypeError
  end.

(** ** The database *)

Record Credentials : Type := mkCredentials {
  username : string;
  api_key : string
}.

Record Track : Type := mkTrack {
  artist : json;
  name : json
}.

(** A row of [users]. *)
Record UserRow : Type := mkUserRow {
  discord_id : Z;
  lfm_username : string;
  lfm_api_key : string
}.

(** A row of [tracks]; every column is NOT NULL and the text columns hold
    text. *)
Record TrackRow : Type := mkTrackRow {
  user_id : Z;
  date : string;
  track_artist : string;
  track_name : string
}.

(** [users] is listed in the order SQLite scans it, by its INTEGER PRIMARY
    KEY; [tracks] in insertion order. *)
Record DB : Type := mkDB {
  users : list UserRow;
  tracks : list TrackRow
}.

Definition empty_db : DB := mkDB [] [].

(** A value bound to a [?] of a statement on a TEXT column: NULL ([None]) or
    the text it has under that column's affinity. *)
Definition sqlvalue := option string.

(** How [sqlite3] adapts a Python value: [None] is NULL, a [bool] is the
    integer 1 or 0, an [int] must fit 64 bits, a [list] or [dict] is
    refused. *)
Definition adapt (v : json) : result sqlvalue :=
  match v with
  | JNull => Ok None
  | JBool b => Ok (Some (if b then "1" else "0"))
  | JInt z =>
      if (- 2 ^ 63 <=? z) && (z <? 2 ^ 63) then Ok (Some (decimal z))
      else Raise OverflowError
  | JStr s => Ok (Some s)
  | JArr _ | JObj _ => Raise BindError
  end.

(** [column = ?]: never true of NULL. *)
Definition sql_eq (column : string) (v : sqlvalue) : bool :=
  match v with
  | Some s => String.eqb column s
  | None => false
  end.

(** SELECT lfm_username, lfm_api_key FROM users WHERE discord_id = ? *)
Definition select_credentials (d : DB) (uid : Z) : option UserRow :=
  find (fun r => discord_id r =? uid) (users d).

(** SELECT 1 FROM tracks WHERE user_id = ? AND track_artist = ? AND track_name = ? *)
Definition select_track (d : DB) (uid : Z) (a n : sqlvalue) : bool :=
  existsb (fun r => (user_id r =? uid) && sql_eq (track_artist r) a
                    && sql_eq (track_name r) n) (tracks d).

(** SELECT 1 FROM tracks WHERE user_id = ? AND date = date('now') *)
Definition select_today (d : DB) (uid : Z) (today : string) : bool :=
  existsb (fun r => (user_id r =? uid) && String.eqb (date r) today) (tracks d).

(** INSERT INTO tracks VALUES (?, date('now'), ?, ?) *)
Definition insert_track (d : DB) (uid : Z) (today : string) (a n : sqlvalue)
  : result DB :=
  match a, n with
  | Some a', Some n' =>
      if select_track d uid a n then Raise IntegrityError
      else Ok (mkDB (users d) (tracks d ++ [mkTrackRow uid today a' n']))
  | _, _ => Raise IntegrityError
  end.

Fixpoint upsert (row : UserRow) (rows : list UserRow) : list UserRow :=
  match rows with
  | [] => [row]
  | r :: rows' =>
      if discord_id row <? discord_id r then row :: r :: rows'
      else if discord_id row =? discord_id r then row :: rows'
      else r :: upsert row rows'
  end.

(** INSERT OR REPLACE INTO users VALUES (?, ?, ?) *)
Definition replace_user (d : DB) (row : UserRow) : DB :=
  mkDB (upsert row (users d)) (tracks d).

(** ** The cog and its surroundings *)

Definition TIME_RANGES : list string :=
  ["7day"; "1month"; "3month"; "6month"; "12month"; "overall"].

(** A GET of [url_base] with the query [format=json],
    [method=user.gettoptracks], [user], [api_key] and [period]. *)
Record Request : Type := mkRequest {
  req_user : string;
  req_api_key : string;
  period : string
}.

(** What came back: the status line, and the document [response.json()]
    decodes ([None] when it raises instead). *)
Record Response : Type := mkResponse {
  status : Z;
  body : option json
}.

(** A [discord.User], as far as the cog reads it. *)
Record User : Type := mkUser {
  id : Z;
  global_name : option string;
  display_avatar_url : string;
  accent_color : option Z
}.

Record Url : Type := mkUrl {
  base : string;
  query : list (string * fstring)
}.

Record Embed : Type := mkEmbed {
  title : fstring;
  colour : Z;
  url : Url
}.

(** The arguments of one [webhook.send]. *)
Record Message : Type := mkMessage {
  sender : fstring;
  avatar_url : string;
  embed : Embed
}.

(** The world outside the process.  [fetch_user] is declared by discord.py to
    return a user or raise; the cog tests its result for falsiness, and the
    model keeps that case.  [random_colour] is [discord.Colour.random(seed=_)],
    [webhook_send] says what sending raises, if anything. *)
Record Env : Type := mkEnv {
  service : Request -> result Response;
  get_user : Z -> option User;
  fetch_user : Z -> result (option User);
  random_colour : Z -> Z;
  webhook_send : Message -> option exn
}.

(** The cog: its database, and what it has done so far to the outside: the
    requests made, the lines logged as errors (the user and the exception
    formatted into the line), the messages sent through the webhook (each
    with the user it was built for). *)
Record State : Type := mkState {
  db : DB;
  requests : list Request;
  errors : list (Z * exn);
  sent : list (Z * Message)
}.

Definition M (A : Type) : Type := State -> result A * State.

Definition ret {A} (a : A) : M A := fun st => (Ok a, st).

Definition bind {A B} (m : M A) (k : A -> M B) : M B :=
  fun st =>
    match m st with
    | (Ok a, st') => k a st'
    | (Raise e, st') => (Raise e, st')
    end.

Definition lift {A} (r : result A) : M A := fun st => (r, st).

(** [try: m  except Exception as error: h error] *)
Definition try_except {A} (m : M A) (h : exn -> M A) : M A :=
  fun st =>
    match m st with
    | (Ok a, st') => (Ok a, st')
    | (Raise e, st') => h e st'
    end.

Declare Scope cog_scope.
Delimit Scope cog_scope with cog.
Notation "x <- m ;; k" := (bind m (fun x => k))
  (at level 61, m at next level, right associativity) : cog_scope.
Notation "m ;;; k" := (bind m (fun _ => k))
  (at level 61, right associativity) : cog_scope.
Local Open Scope cog_scope.

Definition with_db (d : DB) (st : State) : State :=
  mkState d (requests st) (errors st) (sent st).

Definition session_get (env : Env) (rq : Request) : M Response :=
  fun st =>
    (service env rq,
     mkState (db st) (requests st ++ [rq]) (errors st) (sent st)).

Definition logger_error (uid : Z) (error : exn) : M unit :=
  fun st =>
    (Ok tt, mkState (db st) (requests st) (errors st ++ [(uid, error)]) (sent st)).

Definition send (env : Env) (uid : Z) (m : Message) : M unit :=
  fun st =>
    match webhook_send env m with
    | Some e => (Raise e, st)
    | None =>
        (Ok tt, mkState (db st) (requests st) (errors st) (sent st ++ [(uid, m)]))
    end.

(** [execute] of the INSERT followed by [commit]. *)
Definition db_insert_track (uid : Z) (today : string) (a n : sqlvalue) : M unit :=
  fun st =>
    match insert_track (db st) uid today a n with
    | Ok d => (Ok tt, with_db d st)
    | Raise e => (Raise e, st)
    end.

(** ** get_credentials *)

(** What [sqlite3] takes for an integer parameter: a Python [int] within
    signed 64 bits; binding any other raises [OverflowError]. *)
Definition int64 (z : Z) : bool := (- 2 ^ 63 <=? z) && (z <? 2 ^ 63).

(** The [Credentials] of the row that was fetched, [None] when there is no
    row.  The function has no [raise] of its own; binding [user_id] to the
    SELECT raises when the id does not fit. *)
Definition get_credentials (d : DB) (uid : Z) : result (option Credentials) :=
  if int64 uid then
    match select_credentials d uid with
    | Some r => Ok (Some (mkCredentials (lfm_username r) (lfm_api_key r)))
    | None => Ok None
    end
  else Raise OverflowError.

(** ** get_track *)

(** Lines 81 to 86: from the response to the value of [tracks]. *)
Definition read_response (response : Response) : result json :=
  if 400 <=? status response then Raise (ClientResponseError (status response))
  else
    match body response with
    | None => Raise JSONError
    | Some data =>
        rbind (py_contains "error" data) (fun is_error =>
        if is_error then
          rbind (py_getitem data "message") (fun message =>
          Raise (APIError [Lit "Error while fetching top tracks: "; Val message]))
        else
          rbind (py_getitem data "toptracks") (fun toptracks =>
          py_getitem toptracks "track"))
    end.

(** Lines 89 and 90. *)
Definition read_track (track : json) : result Track :=
  rbind (py_getitem track "artist") (fun a =>
  rbind (py_getitem a "name") (fun artist =>
  rbind (py_getitem track "name") (fun name =>
  Ok (mkTrack artist name)))).

(** The parameters of the two statements on [tracks], bound in order. *)
Definition bind_track (t : Track) : result (sqlvalue * sqlvalue) :=
  rbind (adapt (artist t)) (fun a =>
  rbind (adapt (name t)) (fun n =>
  Ok (a, n))).

(** The loop [for track in tracks], over what it iterates. *)
Fixpoint scan_tracks (uid : Z) (today : string) (items : list json)
  : M (option Track) :=
  match items with
  | [] => ret None
  | track :: items' =>
      t <- lift (read_track track) ;;
      p <- lift (bind_track t) ;;
      fun st =>
        if select_track (db st) uid (fst p) (snd p)
        then scan_tracks uid today items' st
        else (db_insert_track uid today (fst p) (snd p) ;;; ret (Some t)) st
  end.

(** The loop [for time_range in ...], over the ranges still to go.  Falling
    off its end returns [None]. *)
Fixpoint get_track_in (env : Env) (today : string) (ranges : list string)
    (uid : Z) (credentials : Credentials) : M (option Track) :=
  match ranges with
  | [] => ret None
  | time_range :: ranges' =>
      response <- session_get env
        (mkRequest (username credentials) (api_key credentials) time_range) ;;
      tracks <- lift (read_response response) ;;
      items <- lift (py_iter tracks) ;;
      found <- scan_tracks uid today items ;;
      match found with
      | Some t => ret (Some t)
      | None => get_track_in env today ranges' uid credentials
      end
  end.

(** [today] is what [date('now')] evaluates to during the call. *)
Definition get_track (env : Env) (today : string) (uid : Z)
    (credentials : Credentials) : M (option Track) :=
  get_track_in env today TIME_RANGES uid credentials.

(** ** RegisterModal.on_submit *)

(** The [discord.Interaction] a submission comes with, as far as [on_submit]
    uses it: [interaction.user.id], and what
    [interaction.response.send_message] raises for a text, if anything. *)
Record Interaction : Type := mkInteraction {
  interaction_user_id : Z;
  response_send_message : string -> option exn
}.

(** Stores the credentials, commits, then answers the interaction; the text
    that was sent is the result.  Binding an id that does not fit 64 bits
    raises before anything is stored; an answer that cannot be sent raises
    after the commit. *)
Definition on_submit (interaction : Interaction)
    (username_value api_key_value : string) : M string :=
  fun st =>
    if int64 (interaction_user_id interaction) then
      match response_send_message interaction "Credentials saved" with
      | None =>
          (Ok "Credentials saved",
           with_db (replace_user (db st)
                      (mkUserRow (interaction_user_id interaction)
                         username_value api_key_value)) st)
      | Some e =>
          (Raise e,
           with_db (replace_user (db st)
                      (mkUserRow (interaction_user_id interaction)
                         username_value api_key_value)) st)
      end
    else (Raise OverflowError, st).

(** ** daily_task *)

Definition opt_json (o : option string) : json :=
  match o with
  | Some s => JStr s
  | None => JNull
  end.

Definition message_for (env : Env) (user : User) (track : Track) : Message :=
  mkMessage
    [Lit "Daily Music - "; Val (opt_json (global_name user))]
    (display_avatar_url user)
    (mkEmbed
       [Val (name track); Lit " by "; Val (artist track)]
       (match accent_color user with
        | Some c => c
        | None => random_colour env (id user)
        end)
       (mkUrl "https://www.youtube.com/results"
          [("search_query", [Val (name track); Lit " "; Val (artist track)])])).

(** [self.bot.get_user(user_id) or await self.bot.fetch_user(user_id)] *)
Definition resolve_user (env : Env) (uid : Z) : result (option User) :=
  match get_user env uid with
  | Some u => Ok (Some u)
  | None => fetch_user env uid
  end.

(** One turn of the loop over the rows of [users]; every [continue] and the
    end of the body are [ret tt]. *)
Definition daily_body (env : Env) (today : string) (row : UserRow) : M unit :=
  fun st =>
    if select_today (db st) (discord_id row) today then ret tt st
    else
      (found <- try_except
                  (t <- get_track env today (discord_id row)
                          (mkCredentials (lfm_username row) (lfm_api_key row)) ;;
                   ret (Some t))
                  (fun error => logger_error (discord_id row) error ;;; ret None) ;;
       match found with
       | None => ret tt
       | Some None => ret tt
       | Some (Some track) =>
           user <- lift (resolve_user env (discord_id row)) ;;
           match user with
           | None => ret tt
           | Some u => send env (discord_id row) (message_for env u track)
           end
       end) st.

Fixpoint daily_loop (env : Env) (today : string) (rows : list UserRow) : M unit :=
  match rows with
  | [] => ret tt
  | row :: rows' => daily_body env today row ;;; daily_loop env today rows'
  end.

(** The rows are those of [users] when the sweep starts; [today] is what
    [date('now')] evaluates to during it. *)
Definition daily_task (env : Env) (today : string) : M unit :=
  fun st => daily_loop env today (users (db st)) st.

(** * The vocabulary of the properties *)

(** ** Effects on the cog *)

Definition row_of (uid : Z) (today : string) (a n : string) : TrackRow :=
  mkTrackRow uid today a n.

Definition add_row (d : DB) (r : TrackRow) : DB :=
  mkDB (users d) (tracks d ++ [r]).

(** The only marks a discovery leaves: nothing logged or sent, and the
    database is changed exactly when a track is returned, by the one row of
    that track, which was not there. *)
Definition discovery_effect (uid : Z) (today : string) (st : State)
    (r : result (option Track)) (st' : State) : Prop :=
  errors st' = errors st /\ sent st' = sent st /\
  match r with
  | Ok (Some t) =>
      exists a n,
        bind_track t = Ok (Some a, Some n) /\
        select_track (db st) uid (Some a) (Some n) = false /\
        db st' = add_row (db st) (row_of uid today a n)
  | _ => db st' = db st
  end.

Definition request_of (credentials : Credentials) (range : string) : Request :=
  mkRequest (username credentials) (api_key credentials) range.

Definition add_requests (rqs : list Request) (st : State) : State :=
  mkState (db st) (requests st ++ rqs) (errors st) (sent st).

(** The service answers the request for [range] with a document whose
    [toptracks.track] iterates over [items]. *)
Definition listing (env : Env) (credentials : Credentials) (range : string)
    (items : list json) : Prop :=
  exists response tracks,
    service env (request_of credentials range) = Ok response /\
    read_response response = Ok tracks /\
    py_iter tracks = Ok items.

(** The entry reads as a track whose row is in the ledger of [uid]. *)
Definition seen (d : DB) (uid : Z) (track : json) : Prop :=
  exists t p,
    read_track track = Ok t /\ bind_track t = Ok p /\
    select_track d uid (fst p) (snd p) = true.

(** ** Responses *)

(** The statuses on which [raise_for_status] raises: 400 and above.  This is
    the test of the code, not the success of the specification: a status of
    the 1xx or 3xx kind passes it. *)
Definition error_status (r : Response) : Prop := 400 <= status r.

(** The document carries an [error] member. *)
Definition embeds_error (data : json) : Prop :=
  exists members, data = JObj members /\ has_key "error" members = true.

(** The document has a [toptracks] object with a [track] member. *)
Definition lists_top_tracks (data : json) : Prop :=
  exists members top x,
    data = JObj members /\
    lookup "toptracks" members = Some (JObj top) /\
    lookup "track" top = Some x.

(** The exception carries the service's message: it is an [APIError] whose
    text interpolates it.  A [ClientResponseError] carries the status line,
    not the body. *)
Definition mentions (e : exn) (message : json) : Prop :=
  match e with
  | APIError text => In (Val message) text
  | _ => False
  end.

(** *** Responses in the words of the specification

    What follows is not read off the code: it is the vocabulary of the
    specification's sentence on failing fetches, defined as its sections 4.2
    and 6 word it, to be compared with what [read_response] does. *)

(** A status that is not a success: anything but 2xx. *)
Definition spec_non_success (r : Response) : Prop :=
  ~ (200 <= status r < 300).

(** An entry [{artist: {name}, name}] of two strings. *)
Definition spec_entry (x : json) : Prop :=
  exists members about a n,
    x = JObj members /\
    lookup "artist" members = Some (JObj about) /\
    lookup "name" about = Some (JStr a) /\
    lookup "name" members = Some (JStr n).

(** A document with a [toptracks.track] array of entries. *)
Definition spec_listing (data : json) : Prop :=
  exists members top entries,
    data = JObj members /\
    lookup "toptracks" members = Some (JObj top) /\
    lookup "track" top = Some (JArr entries) /\
    Forall spec_entry entries.

(** A document with an [error] and [message] pair. *)
Definition spec_error_payload (data message : json) : Prop :=
  exists members code,
    data = JObj members /\
    lookup "error" members = Some code /\
    lookup "message" members = Some message.

(** A response that is neither of the two. *)
Definition spec_malformed (r : Response) : Prop :=
  match body r with
  | None => True
  | Some data =>
      ~ spec_listing data /\ ~ exists message, spec_error_payload data message
  end.

Definition credentials_of (row : UserRow) : Credentials :=
  mkCredentials (lfm_username row) (lfm_api_key row).

Definition add_error (uid : Z) (e : exn) (st : State) : State :=
  mkState (db st) (requests st) (errors st ++ [(uid, e)]) (sent st).

(** What one turn for the user [uid] may do: nothing to the ledger and the
    webhook, or, for a user with no row of today, one new row of today,
    followed by at most one message. *)
Definition turn_effect (uid : Z) (today : string) (st st' : State) : Prop :=
  users (db st') = users (db st) /\
  ((tracks (db st') = tracks (db st) /\ sent st' = sent st) \/
   (select_today (db st) uid today = false /\
    exists a n,
      select_track (db st) uid (Some a) (Some n) = false /\
      tracks (db st') = tracks (db st) ++ [row_of uid today a n] /\
      (sent st' = sent st \/ exists m, sent st' = sent st ++ [(uid, m)]))).

(** ** Histories *)

(** What happens to the cog after it is set up: a user submits the modal, the
    scheduler fires a sweep, and, to account for every call of [get_track]
    and every state a sweep goes through, one discovery and one turn of the
    sweep's loop on their own.  Each comes with the world and the date of its
    moment. *)
Inductive event : Type :=
| Submit (interaction : Interaction) (username_value api_key_value : string)
| Discover (env : Env) (today : string) (uid : Z) (credentials : Credentials)
| Turn (env : Env) (today : string) (row : UserRow)
| Sweep (env : Env) (today : string).

Definition run (ev : event) (st : State) : State :=
  match ev with
  | Submit interaction u k => snd (on_submit interaction u k st)
  | Discover env today uid credentials => snd (get_track env today uid credentials st)
  | Turn env today row => snd (daily_body env today row st)
  | Sweep env today => snd (daily_task env today st)
  end.

Definition run_all (evs : list event) (st : State) : State :=
  fold_left (fun s ev => run ev s) evs st.

(** The ledger of [st'] is the ledger of [st] with rows added at its end. *)
Definition extends (st st' : State) : Prop :=
  exists added, tracks (db st') = tracks (db st) ++ added.

(** Two ledgers answer alike for the tracks of [uid]. *)
Definition agree (uid : Z) (d1 d2 : DB) : Prop :=
  forall a n, select_track d1 uid a n = select_track d2 uid a n.

(** Either the user has a row of today, or discovery finds nothing for them
    in this world: it returns [None] or raises. *)
Definition quiet (env : Env) (today : string) (row : UserRow) (d : DB) : Prop :=
  select_today d (discord_id row) today = true \/
  forall st, db st = d ->
    forall t, fst (get_track env today (discord_id row) (credentials_of row) st)
              <> Ok (Some t).

(** The rows of [uid] dated [today]. *)
Definition rows_today (d : DB) (uid : Z) (today : string) : nat :=
  List.length (filter (fun r => (user_id r =? uid) && String.eqb (date r) today) (tracks d)).

(** The messages sent for [uid]. *)
Definition sent_to (st : State) (uid : Z) : nat :=
  List.length (filter (fun m => fst m =? uid) (sent st)).

(** From [st] to [st'], for [uid] on the day [today]: rows and messages are
    only added, no more messages than rows, and a row only while there was
    none. *)
Definition within_cap (uid : Z) (today : string) (st st' : State) : Prop :=
  (rows_today (db st) uid today <= rows_today (db st') uid today)%nat /\
  (sent_to st uid <= sent_to st' uid)%nat /\
  (sent_to st' uid + rows_today (db st) uid today
   <= sent_to st uid + rows_today (db st') uid today)%nat /\
  (rows_today (db st') uid today <= Nat.max 1 (rows_today (db st) uid today))%nat.

(** The sweeps of one day, one after the other, each in the world of its
    moment and each carried on from where the one before stopped. *)
Definition sweeps (envs : list Env) (today : string) (st : State) : State :=
  fold_left (fun s env => snd (daily_task env today s)) envs st.

(** ** The world and an exception *)


(** ** The keys of the two tables *)

(** The ids of [users] rise strictly along the table, as its INTEGER PRIMARY
    KEY has them; they are then distinct. *)
Definition users_sorted (d : DB) : Prop :=
  StronglySorted Z.lt (map discord_id (users d)).

(** The PRIMARY KEY of [tracks]. *)
Definition track_key (r : TrackRow) : Z * string * string :=
  (user_id r, track_artist r, track_name r).

Definition keys_unique (d : DB) : Prop :=
  NoDup (map track_key (tracks d)).

(** An event other than a submission of the modal. *)
Definition no_submit (ev : event) : Prop :=
  match ev with
  | Submit _ _ _ => False
  | _ => True
  end.

(** The value under [toptracks.track] is something the loop iterates over
    without an entry to read: a list, or an empty dict or string. *)
Definition iterates_entries (tracks : json) : bool :=
  match tracks with
  | JArr _ => true
  | JObj [] => true
  | JStr EmptyString => true
  | _ => false
  end.

(** ** A scenario *)

(** A scenario of the specification: the user's 7-day listing is [A] alone,
    the 1-month listing is [C, A], and [A] was delivered the day before. *)
Module Scenario.

Definition entry (a n : string) : json :=
  JObj [("name", JStr n); ("playcount", JStr "3");
        ("artist", JObj [("name", JStr a); ("mbid", JStr "")])].

Definition document (entries : list json) : Response :=
  mkResponse 200
    (Some (JObj [("toptracks", JObj [("track", JArr entries); ("@attr", JObj [])])])).

Definition failure : Response :=
  mkResponse 200 (Some (JObj [("error", JInt 6); ("message", JStr "User not found")])).

(** What the service sends for a key it does not know: the error payload,
    under the status 403. *)
Definition denied : Response :=
  mkResponse 403 (Some (JObj [("error", JInt 10); ("message", JStr "Invalid API key")])).

(** A listing whose [track] is an empty object instead of a list. *)
Definition no_list : Response :=
  mkResponse 200 (Some (JObj [("toptracks", JObj [("track", JObj [])])])).

(** A listing sent under the status 300. *)
Definition redirected : Response :=
  mkResponse 300 (Some (JObj [("toptracks", JObj [("track", JArr [])])])).

Definition alice : User := mkUser 1 (Some "alice") "https://cdn/1.png" None.

Definition lastfm (rq : Request) : result Response :=
  if String.eqb (req_user rq) "nobody" then Ok failure
  else if String.eqb (period rq) "7day" then Ok (document [entry "a" "A"])
  else if String.eqb (period rq) "1month" then Ok (document [entry "c" "C"; entry "a" "A"])
  else Ok (document []).

(** Discord knows user 1, has no user to give for user 2, and fails for
    every other user. *)
Definition env : Env :=
  mkEnv lastfm
    (fun _ => None)
    (fun uid => if uid =? 1 then Ok (Some alice)
                else if uid =? 2 then Ok None
                else Raise DiscordError)
    (fun _ => 0)
    (fun _ => None).

Definition me : Credentials := mkCredentials "me" "key".

Definition yesterday : DB :=
  mkDB [mkUserRow 1 "me" "key"] [mkTrackRow 1 "2024-05-01" "a" "A"].

Definition st : State := mkState yesterday [] [] [].

(** Two users registered, nothing delivered yet; user 0 has left Discord. *)
Definition newcomers : State :=
  mkState (mkDB [mkUserRow 0 "ghost" "key0"; mkUserRow 1 "me" "key"] []) [] [] [].

Definition shy : UserRow := mkUserRow 2 "shy" "key2".

(** The modal submitted by a user, answered without trouble. *)
Definition modal (uid : Z) : Interaction := mkInteraction uid (fun _ => None).

End Scenario.

(** * Properties *)

(** ** What a discovery does to the cog *)

Lemma scan_tracks_seen uid today track items t p st :
  read_track track = Ok t ->
  bind_track t = Ok p ->
  select_track (db st) uid (fst p) (snd p) = true ->
  scan_tracks uid today (track :: items) st = scan_tracks uid today items st.
Proof.
  intros Ht Hp Hs. simpl. unfold bind, lift. rewrite Ht, Hp, Hs. reflexivity.
Qed.

Lemma scan_tracks_new uid today track items t a n st :
  read_track track = Ok t ->
  bind_track t = Ok (Some a, Some n) ->
  select_track (db st) uid (Some a) (Some n) = false ->
  scan_tracks uid today (track :: items) st =
  (Ok (Some t), with_db (add_row (db st) (row_of uid today a n)) st).
Proof.
  intros Ht Hp Hs. simpl. unfold bind, lift. rewrite Ht, Hp. simpl.
  rewrite Hs. unfold db_insert_track, insert_track. rewrite Hs. reflexivity.
Qed.

Lemma scan_tracks_effect uid today items :
  forall st r st',
    scan_tracks uid today items st = (r, st') ->
    discovery_effect uid today st r st' /\ requests st' = requests st.
Proof.
  induction items as [|track items IH]; intros st r st' H; simpl in H.
  - inversion H; subst. repeat split.
  - unfold bind, lift in H.
    destruct (read_track track) as [t|e].
    2:{ inversion H; subst. repeat split. }
    destruct (bind_track t) as [[a n]|e] eqn:Hp.
    2:{ inversion H; subst. repeat split. }
    simpl in H.
    destruct (select_track (db st) uid a n) eqn:Hs.
    + apply IH; exact H.
    + unfold db_insert_track, insert_track in H.
      destruct a as [a|], n as [n|];
        try (inversion H; subst; repeat split; fail).
      rewrite Hs in H. inversion H; subst. simpl.
      repeat split. exists a, n. repeat split; assumption.
Qed.

Lemma get_track_in_effect env today uid credentials ranges :
  forall st r st',
    get_track_in env today ranges uid credentials st = (r, st') ->
    discovery_effect uid today st r st'.
Proof.
  induction ranges as [|range ranges IH]; intros st r st' H; simpl in H.
  - inversion H; subst. repeat split.
  - unfold bind, lift, session_get in H.
    destruct (service env _) as [response|e].
    2:{ inversion H; subst. repeat split. }
    destruct (read_response response) as [tr|e].
    2:{ inversion H; subst. repeat split. }
    destruct (py_iter tr) as [items|e].
    2:{ inversion H; subst. repeat split. }
    match type of H with
    | context [scan_tracks ?u ?d ?i ?s] =>
        destruct (scan_tracks u d i s) as [r1 st1] eqn:Hscan
    end.
    apply scan_tracks_effect in Hscan. destruct Hscan as [(He & Hm & Hd) _].
    simpl in He, Hm, Hd.
    destruct r1 as [[t|]|e].
    + inversion H; subst. unfold discovery_effect. simpl. auto.
    + apply IH in H. destruct H as (He' & Hm' & Hd').
      unfold discovery_effect. rewrite He', Hm', He, Hm. repeat split.
      destruct r as [[t|]|e']; rewrite Hd in Hd'; exact Hd'.
    + inversion H; subst. unfold discovery_effect. simpl. auto.
Qed.

(** ** The order of discovery *)

Lemma add_requests_nil st : add_requests [] st = st.
Proof. destruct st; unfold add_requests; simpl. now rewrite app_nil_r. Qed.

Lemma add_requests_app rqs rqs' st :
  add_requests rqs' (add_requests rqs st) = add_requests (rqs ++ rqs') st.
Proof. unfold add_requests; simpl. now rewrite app_assoc. Qed.

Lemma scan_tracks_all_seen uid today items st :
  Forall (seen (db st) uid) items ->
  scan_tracks uid today items st = (Ok None, st).
Proof.
  induction 1 as [|track items (t & p & Ht & Hp & Hs) _ IH].
  - reflexivity.
  - rewrite (scan_tracks_seen _ _ _ _ _ _ _ Ht Hp Hs). exact IH.
Qed.

Lemma scan_tracks_first_unseen uid today before track rest t a n st :
  Forall (seen (db st) uid) before ->
  read_track track = Ok t ->
  bind_track t = Ok (Some a, Some n) ->
  select_track (db st) uid (Some a) (Some n) = false ->
  scan_tracks uid today (before ++ track :: rest) st =
  (Ok (Some t), with_db (add_row (db st) (row_of uid today a n)) st).
Proof.
  intros Hb Ht Hp Hs.
  induction Hb as [|x before (t' & p' & Ht' & Hp' & Hs') _ IH]; simpl app.
  - now apply scan_tracks_new.
  - rewrite (scan_tracks_seen _ _ _ _ _ _ _ Ht' Hp' Hs'). exact IH.
Qed.

Lemma get_track_in_listing env today uid credentials range ranges items st :
  listing env credentials range items ->
  get_track_in env today (range :: ranges) uid credentials st =
  match scan_tracks uid today items (add_requests [request_of credentials range] st) with
  | (Ok (Some t), st') => (Ok (Some t), st')
  | (Ok None, st') => get_track_in env today ranges uid credentials st'
  | (Raise e, st') => (Raise e, st')
  end.
Proof.
  intros (response & tr & Hsvc & Hread & Hiter).
  simpl. unfold bind, lift, session_get. fold (request_of credentials range).
  rewrite Hsvc, Hread, Hiter. fold (add_requests [request_of credentials range] st).
  destruct (scan_tracks uid today items _) as [[[t|]|e] st']; reflexivity.
Qed.

Lemma get_track_in_all_seen env today uid credentials ranges :
  forall st,
    (forall r, In r ranges ->
       exists items, listing env credentials r items /\
                     Forall (seen (db st) uid) items) ->
    get_track_in env today ranges uid credentials st =
    (Ok None, add_requests (map (request_of credentials) ranges) st).
Proof.
  induction ranges as [|range ranges IH]; intros st H.
  - simpl. now rewrite add_requests_nil.
  - destruct (H range (or_introl eq_refl)) as (items & Hl & Hseen).
    rewrite (get_track_in_listing _ _ _ _ _ _ _ _ Hl).
    rewrite scan_tracks_all_seen by exact Hseen.
    rewrite IH.
    + now rewrite add_requests_app.
    + intros r Hr. apply H. now right.
Qed.

Lemma get_track_in_first_unseen env today uid credentials
    before range after seen_items track rest t a n st :
  (forall r, In r before ->
     exists items, listing env credentials r items /\
                   Forall (seen (db st) uid) items) ->
  listing env credentials range (seen_items ++ track :: rest) ->
  Forall (seen (db st) uid) seen_items ->
  read_track track = Ok t ->
  bind_track t = Ok (Some a, Some n) ->
  select_track (db st) uid (Some a) (Some n) = false ->
  get_track_in env today (before ++ range :: after) uid credentials st =
  (Ok (Some t),
   mkState (add_row (db st) (row_of uid today a n))
     (requests st ++ map (request_of credentials) (before ++ [range]))
     (errors st) (sent st)).
Proof.
  intros Hbefore Hl Hseen Ht Hp Hs.
  revert st Hbefore Hseen Hs.
  induction before as [|r before IH]; intros st Hbefore Hseen Hs; simpl app.
  - rewrite (get_track_in_listing _ _ _ _ _ _ _ _ Hl).
    rewrite scan_tracks_first_unseen with (t := t) (a := a) (n := n);
      try assumption.
    reflexivity.
  - destruct (Hbefore r (or_introl eq_refl)) as (items & Hl' & Hseen').
    rewrite (get_track_in_listing _ _ _ _ _ _ _ _ Hl').
    rewrite scan_tracks_all_seen by exact Hseen'.
    rewrite IH; simpl; try assumption.
    + now rewrite <- app_assoc.
    + intros r' Hr'. apply Hbefore. now right.
Qed.

(** C1.  Let the ranges before [range], in the order of [TIME_RANGES], all be
    fetched and list only tracks already in the user's ledger, and let the
    listing of [range] begin with such tracks, followed by a track that is not
    in the ledger.  Then [get_track] returns that track: the highest ranked
    unseen track of the shortest range that has one.  It adds to the ledger
    exactly the row of that track, dated today, and it has requested the
    ranges up to [range] and none after it; what follows the track in its
    listing ([rest]), and what the service would answer for the later ranges
    ([after]), is never looked at, so it may be anything. *)
Theorem get_track_first_unseen env today uid credentials st
    (before : list string) range after (seen_items : list json) track rest t a n :
  TIME_RANGES = before ++ range :: after ->
  (forall r, In r before ->
     exists items, listing env credentials r items /\
                   Forall (seen (db st) uid) items) ->
  listing env credentials range (seen_items ++ track :: rest) ->
  Forall (seen (db st) uid) seen_items ->
  read_track track = Ok t ->
  bind_track t = Ok (Some a, Some n) ->
  select_track (db st) uid (Some a) (Some n) = false ->
  get_track env today uid credentials st =
  (Ok (Some t),
   mkState (add_row (db st) (row_of uid today a n))
     (requests st ++ map (request_of credentials) (before ++ [range]))
     (errors st) (sent st)).
Proof.
  intros Hranges. unfold get_track. rewrite Hranges.
  apply get_track_in_first_unseen.
Qed.

Lemma get_track_first_unseen_witness :
  get_track Scenario.env "2024-05-02" 1 Scenario.me Scenario.st =
  (Ok (Some (mkTrack (JStr "c") (JStr "C"))),
   mkState
     (mkDB [mkUserRow 1 "me" "key"]
        [mkTrackRow 1 "2024-05-01" "a" "A"; mkTrackRow 1 "2024-05-02" "c" "C"])
     [request_of Scenario.me "7day"; request_of Scenario.me "1month"] [] []).
Proof.
  apply (get_track_first_unseen Scenario.env "2024-05-02" 1 Scenario.me Scenario.st
           ["7day"] "1month" ["3month"; "6month"; "12month"; "overall"]
           [] (Scenario.entry "c" "C") [Scenario.entry "a" "A"]
           (mkTrack (JStr "c") (JStr "C")) "c" "C").
  - reflexivity.
  - intros r [<-|[]]. exists [Scenario.entry "a" "A"]. split.
    + eexists _, _. repeat split; reflexivity.
    + constructor; [|constructor].
      eexists _, _. repeat split; reflexivity.
  - eexists _, _. repeat split; reflexivity.
  - constructor.
  - reflexivity.
  - reflexivity.
  - reflexivity.
Defined.

(** C7.  When every range is fetched and every track it lists is already in
    the user's ledger, [get_track] returns [None] and raises nothing, having
    requested all six ranges and left the cog otherwise as it was.  And a
    range whose listing is empty is passed over: discovery goes on with the
    ranges that follow. *)
Theorem get_track_nothing_new :
  (forall env today uid credentials st,
     (forall r, In r TIME_RANGES ->
        exists items, listing env credentials r items /\
                      Forall (seen (db st) uid) items) ->
     get_track env today uid credentials st =
     (Ok None, add_requests (map (request_of credentials) TIME_RANGES) st))
  /\
  (forall env today uid credentials st range ranges,
     listing env credentials range [] ->
     get_track_in env today (range :: ranges) uid credentials st =
     get_track_in env today ranges uid credentials
       (add_requests [request_of credentials range] st)).
Proof.
  split.
  - intros. now apply get_track_in_all_seen.
  - intros env today uid credentials st range ranges Hl.
    now rewrite (get_track_in_listing _ _ _ _ _ _ _ _ Hl).
Qed.

Lemma get_track_nothing_new_witness :
  get_track Scenario.env "2024-05-02" 1 Scenario.me
    (with_db (add_row Scenario.yesterday (row_of 1 "2024-05-02" "c" "C")) Scenario.st) =
  (Ok None,
   add_requests (map (request_of Scenario.me) TIME_RANGES)
     (with_db (add_row Scenario.yesterday (row_of 1 "2024-05-02" "c" "C")) Scenario.st))
  /\
  get_track_in Scenario.env "2024-05-02" ["3month"; "6month"] 1 Scenario.me Scenario.st =
  get_track_in Scenario.env "2024-05-02" ["6month"] 1 Scenario.me
    (add_requests [request_of Scenario.me "3month"] Scenario.st).
Proof.
  split.
  - apply (proj1 get_track_nothing_new).
    intros r Hr.
    assert (Hentry : forall a n,
      select_track (add_row Scenario.yesterday (row_of 1 "2024-05-02" "c" "C"))
        1 (Some a) (Some n) = true ->
      seen (add_row Scenario.yesterday (row_of 1 "2024-05-02" "c" "C")) 1
        (Scenario.entry a n)).
    { intros a n H. exists (mkTrack (JStr a) (JStr n)), (Some a, Some n).
      split; [reflexivity | split; [reflexivity | exact H]]. }
    simpl in Hr.
    destruct Hr as [<-|[<-|[<-|[<-|[<-|[<-|[]]]]]]].
    + exists [Scenario.entry "a" "A"]. split.
      * eexists _, _. repeat split; reflexivity.
      * repeat constructor; apply Hentry; reflexivity.
    + exists [Scenario.entry "c" "C"; Scenario.entry "a" "A"]. split.
      * eexists _, _. repeat split; reflexivity.
      * repeat constructor; apply Hentry; reflexivity.
    + exists []. split; [eexists _, _; repeat split; reflexivity | constructor].
    + exists []. split; [eexists _, _; repeat split; reflexivity | constructor].
    + exists []. split; [eexists _, _; repeat split; reflexivity | constructor].
    + exists []. split; [eexists _, _; repeat split; reflexivity | constructor].
  - apply (proj2 get_track_nothing_new).
    eexists _, _. repeat split; reflexivity.
Defined.

(** ** Failures of a fetch *)

Lemma read_object_fails_iff members :
  failed (rbind (py_contains "error" (JObj members)) (fun is_error =>
          if is_error then
            rbind (py_getitem (JObj members) "message") (fun message =>
            Raise (APIError [Lit "Error while fetching top tracks: "; Val message]))
          else
            rbind (py_getitem (JObj members) "toptracks") (fun toptracks =>
            py_getitem toptracks "track")))
  <-> embeds_error (JObj members) \/ ~ lists_top_tracks (JObj members).
Proof.
  simpl. destruct (has_key "error" members) eqn:Herr.
  - split; [intros _; left; now exists members|intros _].
    destruct (lookup "message" members); simpl; eexists; reflexivity.
  - assert (Hno : ~ embeds_error (JObj members)).
    { intros (m & Hm & Hk). inversion Hm; subst. congruence. }
    destruct (lookup "toptracks" members) as [top|] eqn:Htop; simpl.
    2:{ split; [intros _; right|intros _; eexists; reflexivity].
        intros (m & top & x & Hm & Ht & _). inversion Hm; subst. congruence. }
    destruct top as [| | | | |top];
      try (split; [intros _; right|intros _; eexists; reflexivity];
           intros (m & top' & x & Hm & Ht & _); inversion Hm; subst; congruence).
    simpl. destruct (lookup "track" top) as [x|] eqn:Hx.
    + split.
      * intros (e & He). discriminate.
      * intros [H|H]; [contradiction|]. exfalso. apply H.
        now exists members, top, x.
    + split; [intros _; right|intros _; eexists; reflexivity].
      intros (m & top' & x & Hm & Ht & Hx'). inversion Hm; subst.
      rewrite Htop in Ht. inversion Ht; subst. congruence.
Qed.

Lemma read_response_fails_iff_aux r :
  failed (read_response r) <->
  error_status r \/ body r = None \/
  exists data, body r = Some data /\ (embeds_error data \/ ~ lists_top_tracks data).
Proof.
  unfold read_response, error_status.
  destruct (400 <=? status r) eqn:Hst.
  - apply Z.leb_le in Hst. split; [now left | intros _; eexists; reflexivity].
  - apply Z.leb_gt in Hst.
    destruct (body r) as [data|].
    2:{ split; [intros _; right; now left | intros _; eexists; reflexivity]. }
    assert (Hother : (forall members, data <> JObj members) ->
                     ~ lists_top_tracks data).
    { intros Hd (m & top & x & Hm & _). exact (Hd m Hm). }
    destruct data as [| b | z | s | items | members].
    1-5: split;
      [ intros _; right; right; eexists; split; [reflexivity|];
        right; apply Hother; discriminate
      | intros _; simpl;
        repeat match goal with
               | |- context [if ?c then _ else _] => destruct c
               end; simpl; eexists; reflexivity ].
    rewrite read_object_fails_iff. split.
    + intros H. right; right. now exists (JObj members).
    + intros [H|[H|(d & Hd & H)]].
      * lia.
      * discriminate.
      * inversion Hd; subst. exact H.
Qed.

Lemma get_track_in_fetch_fails env today uid credentials range ranges st response e :
  service env (request_of credentials range) = Ok response ->
  read_response response = Raise e ->
  get_track_in env today (range :: ranges) uid credentials st =
  (Raise e, add_requests [request_of credentials range] st).
Proof.
  intros Hsvc Hread. simpl. unfold bind, lift, session_get.
  fold (request_of credentials range). rewrite Hsvc, Hread. reflexivity.
Qed.

Lemma append_empty_r (s : string) : (s ++ "")%string = s.
Proof. induction s as [|c s IH]; simpl; [reflexivity | now rewrite IH]. Qed.

(** C5, as the code has it.  Reading a response (lines 81 to 86 of
    [get_track]) raises exactly when the status is 400 or more, or the body
    is no JSON document, or the document has an [error] member, or it is
    anything but an object whose [toptracks] object has a [track] member;
    what is under [track] is not looked at.  When the status is below 400 and
    the document has an [error] member with a message, what is raised is an
    [APIError] that carries the message: its text is "Error while fetching
    top tracks: " followed by it, which for a message that is a string is the
    string itself.  And the failure of a fetch is the failure of the discovery
    that made it, raised after that one request. *)
Theorem read_response_fails_iff :
  (forall r,
     failed (read_response r) <->
     error_status r \/ body r = None \/
     exists data, body r = Some data /\
                  (embeds_error data \/ ~ lists_top_tracks data))
  /\
  (forall r members message,
     ~ error_status r ->
     body r = Some (JObj members) ->
     has_key "error" members = true ->
     lookup "message" members = Some message ->
     read_response r =
     Raise (APIError [Lit "Error while fetching top tracks: "; Val message]) /\
     mentions (APIError [Lit "Error while fetching top tracks: "; Val message]) message)
  /\
  (forall s,
     render [Lit "Error while fetching top tracks: "; Val (JStr s)] =
     Some ("Error while fetching top tracks: " ++ s)%string)
  /\
  (forall env today uid credentials range ranges st response e,
     service env (request_of credentials range) = Ok response ->
     read_response response = Raise e ->
     get_track_in env today (range :: ranges) uid credentials st =
     (Raise e, add_requests [request_of credentials range] st)).
Proof.
  split; [exact read_response_fails_iff_aux|].
  split; [|split].
  - intros r members message Hst Hbody Herr Hmsg. split.
    + unfold read_response, error_status in *.
      destruct (400 <=? status r) eqn:Hleb.
      * apply Z.leb_le in Hleb. contradiction.
      * rewrite Hbody. simpl. rewrite Herr, Hmsg. reflexivity.
    + simpl. right. now left.
  - intros s. simpl. now rewrite append_empty_r.
  - intros. now apply get_track_in_fetch_fails with (response := response).
Qed.

Lemma read_response_fails_iff_witness :
  failed (read_response Scenario.failure) /\
  read_response Scenario.failure =
  Raise (APIError [Lit "Error while fetching top tracks: "; Val (JStr "User not found")]) /\
  get_track_in Scenario.env "2024-05-02" ["7day"; "1month"] 1
    (mkCredentials "nobody" "key") Scenario.st =
  (Raise (APIError [Lit "Error while fetching top tracks: "; Val (JStr "User not found")]),
   add_requests [request_of (mkCredentials "nobody" "key") "7day"] Scenario.st).
Proof.
  destruct read_response_fails_iff as (Hiff & Hmsg & _ & Hget).
  split; [|split].
  - apply (proj2 (Hiff Scenario.failure)).
    right; right. exists (JObj [("error", JInt 6); ("message", JStr "User not found")]).
    split; [reflexivity|]. left. eexists. split; reflexivity.
  - apply (Hmsg Scenario.failure
             [("error", JInt 6); ("message", JStr "User not found")]
             (JStr "User not found")).
    + unfold error_status. simpl. lia.
    + reflexivity.
    + reflexivity.
    + reflexivity.
  - apply (Hget Scenario.env "2024-05-02" 1 (mkCredentials "nobody" "key")
             "7day" ["1month"] Scenario.st Scenario.failure).
    + reflexivity.
    + reflexivity.
Defined.

(** C5, as the specification has it, fails three ways.  An error payload sent
    under the status 403 raises a [ClientResponseError], which does not carry
    the service's message: the status is tested first.  A document whose
    [track] is not a list of entries is malformed and yet is read without a
    failure.  And a status that is not a success, 300, passes. *)
Lemma fetch_failures_not_as_specified :
  (spec_error_payload (JObj [("error", JInt 10); ("message", JStr "Invalid API key")])
     (JStr "Invalid API key") /\
   read_response Scenario.denied = Raise (ClientResponseError 403) /\
   ~ mentions (ClientResponseError 403) (JStr "Invalid API key"))
  /\
  (spec_malformed Scenario.no_list /\
   read_response Scenario.no_list = Ok (JObj []) /\
   ~ failed (read_response Scenario.no_list))
  /\
  (spec_non_success Scenario.redirected /\
   ~ failed (read_response Scenario.redirected)).
Proof.
  split; [|split].
  - split; [|split].
    + exists [("error", JInt 10); ("message", JStr "Invalid API key")], (JInt 10).
      repeat split.
    + reflexivity.
    + intros H. exact H.
  - split; [|split].
    + simpl. split.
      * intros (members & top & entries & Hm & Ht & Hx & _).
        inversion Hm; subst. simpl in Ht. inversion Ht; subst.
        simpl in Hx. discriminate.
      * intros (message & members & code & Hm & He & _).
        inversion Hm; subst. simpl in He. discriminate.
    + reflexivity.
    + intros (e & He). discriminate.
  - split.
    + unfold spec_non_success. simpl. lia.
    + intros (e & He). discriminate.
Qed.

(** ** Failure leaves the ledger alone *)

(** C4.  A call of [get_track] that raises has inserted nothing: the
    database after it is the database before it.  In particular, when the
    service answers every range with an error payload, the call raises at the
    first range, after that one request, and the ledger is unchanged. *)
Theorem get_track_failure_keeps_ledger :
  (forall env today uid credentials st e st',
     get_track env today uid credentials st = (Raise e, st') ->
     db st' = db st)
  /\
  (forall env today uid credentials st,
     (forall range, In range TIME_RANGES ->
        exists response data,
          service env (request_of credentials range) = Ok response /\
          ~ error_status response /\
          body response = Some data /\ embeds_error data) ->
     exists e st',
       get_track env today uid credentials st = (Raise e, st') /\
       db st' = db st /\
       requests st' = requests st ++ [request_of credentials "7day"]).
Proof.
  split.
  - intros env today uid credentials st e st' H.
    apply get_track_in_effect in H. apply H.
  - intros env today uid credentials st H.
    destruct (H "7day" (or_introl eq_refl))
      as (response & data & Hsvc & Hst & Hbody & Herr).
    assert (Hfail : failed (read_response response)).
    { apply read_response_fails_iff_aux. right; right. exists data. auto. }
    destruct Hfail as (e & He).
    exists e, (add_requests [request_of credentials "7day"] st).
    split; [|split; reflexivity].
    unfold get_track, TIME_RANGES.
    now apply get_track_in_fetch_fails with (response := response).
Qed.

Lemma get_track_failure_keeps_ledger_witness :
  exists e st',
    get_track Scenario.env "2024-05-02" 1 (mkCredentials "nobody" "key") Scenario.st =
    (Raise e, st') /\
    db st' = db Scenario.st /\
    requests st' =
    requests Scenario.st ++ [request_of (mkCredentials "nobody" "key") "7day"].
Proof.
  apply (proj2 get_track_failure_keeps_ledger
           Scenario.env "2024-05-02" 1 (mkCredentials "nobody" "key") Scenario.st).
  intros range _.
  exists Scenario.failure, (JObj [("error", JInt 6); ("message", JStr "User not found")]).
  split; [reflexivity|]. split; [unfold error_status; simpl; lia|].
  split; [reflexivity|]. eexists. split; reflexivity.
Defined.

(** ** One turn of the sweep *)

Lemma daily_body_skip env today row st :
  select_today (db st) (discord_id row) today = true ->
  daily_body env today row st = (Ok tt, st).
Proof. intros H. unfold daily_body. now rewrite H. Qed.

Lemma daily_body_raise env today row st e st1 :
  select_today (db st) (discord_id row) today = false ->
  get_track env today (discord_id row) (credentials_of row) st = (Raise e, st1) ->
  daily_body env today row st = (Ok tt, add_error (discord_id row) e st1).
Proof.
  intros Hsel Hget. unfold daily_body. rewrite Hsel.
  unfold bind, try_except. fold (credentials_of row). now rewrite Hget.
Qed.

Lemma daily_body_none env today row st st1 :
  select_today (db st) (discord_id row) today = false ->
  get_track env today (discord_id row) (credentials_of row) st = (Ok None, st1) ->
  daily_body env today row st = (Ok tt, st1).
Proof.
  intros Hsel Hget. unfold daily_body. rewrite Hsel.
  unfold bind, try_except. fold (credentials_of row). now rewrite Hget.
Qed.

Lemma daily_body_found env today row st t st1 :
  select_today (db st) (discord_id row) today = false ->
  get_track env today (discord_id row) (credentials_of row) st = (Ok (Some t), st1) ->
  daily_body env today row st =
  match resolve_user env (discord_id row) with
  | Raise e => (Raise e, st1)
  | Ok None => (Ok tt, st1)
  | Ok (Some u) => send env (discord_id row) (message_for env u t) st1
  end.
Proof.
  intros Hsel Hget. unfold daily_body. rewrite Hsel.
  unfold bind, try_except, lift. fold (credentials_of row). rewrite Hget. simpl.
  destruct (resolve_user env (discord_id row)) as [[u|]|e]; reflexivity.
Qed.

Lemma daily_body_effect env today row st r st' :
  daily_body env today row st = (r, st') ->
  turn_effect (discord_id row) today st st'.
Proof.
  intros H. unfold turn_effect.
  destruct (select_today (db st) (discord_id row) today) eqn:Hsel.
  { rewrite daily_body_skip in H by exact Hsel. inversion H; subst. auto. }
  destruct (get_track env today (discord_id row) (credentials_of row) st)
    as [[[t|]|e] st1] eqn:Hget;
    pose proof (get_track_in_effect _ _ _ _ _ _ _ _ Hget) as (He & Hm & Hd).
  - rewrite (daily_body_found _ _ _ _ _ _ Hsel Hget) in H.
    destruct Hd as (a & n & Hp & Hs & Hd).
    assert (Hu : users (db st1) = users (db st)) by now rewrite Hd.
    assert (Ht : tracks (db st1) = tracks (db st) ++ [row_of (discord_id row) today a n])
      by now rewrite Hd.
    destruct (resolve_user env (discord_id row)) as [[u|]|e].
    + unfold send in H. destruct (webhook_send env _).
      * inversion H; subst. split; [exact Hu|]. right. split; [reflexivity|].
        exists a, n. auto.
      * inversion H; subst. simpl. split; [exact Hu|]. right. split; [reflexivity|].
        exists a, n. repeat split; try assumption. right. rewrite Hm. eauto.
    + inversion H; subst. split; [exact Hu|]. right. split; [reflexivity|].
      exists a, n. auto.
    + inversion H; subst. split; [exact Hu|]. right. split; [reflexivity|].
      exists a, n. auto.
  - rewrite (daily_body_none _ _ _ _ _ Hsel Hget) in H. inversion H; subst.
    rewrite Hd. auto.
  - rewrite (daily_body_raise _ _ _ _ _ _ Hsel Hget) in H. inversion H; subst.
    simpl. rewrite Hd. auto.
Qed.

(** ** The life of the cog *)

Lemma extends_refl st : extends st st.
Proof. exists []. now rewrite app_nil_r. Qed.

Lemma extends_trans st1 st2 st3 :
  extends st1 st2 -> extends st2 st3 -> extends st1 st3.
Proof.
  intros (a & Ha) (b & Hb). exists (a ++ b). now rewrite Hb, Ha, app_assoc.
Qed.

Lemma extends_select_track st st' uid a n :
  extends st st' ->
  select_track (db st) uid a n = true ->
  select_track (db st') uid a n = true.
Proof.
  intros (added & H) Hs. unfold select_track in *.
  rewrite H, existsb_app, Hs. reflexivity.
Qed.

Lemma get_track_extends env today uid credentials st r st' :
  get_track env today uid credentials st = (r, st') -> extends st st'.
Proof.
  intros H. apply get_track_in_effect in H. destruct H as (_ & _ & H).
  unfold extends.
  destruct r as [[t|]|e]; try (rewrite H; exists []; now rewrite app_nil_r).
  destruct H as (a & n & _ & _ & H). rewrite H. now eexists.
Qed.

Lemma daily_body_extends env today row st r st' :
  daily_body env today row st = (r, st') -> extends st st'.
Proof.
  intros H. apply daily_body_effect in H.
  destruct H as (_ & [(H & _)|(_ & a & n & _ & H & _)]); unfold extends.
  - rewrite H. exists []. now rewrite app_nil_r.
  - rewrite H. now eexists.
Qed.

Lemma daily_loop_extends env today rows :
  forall st r st',
    daily_loop env today rows st = (r, st') ->
    extends st st' /\ users (db st') = users (db st).
Proof.
  induction rows as [|row rows IH]; intros st r st' H; simpl in H.
  - inversion H; subst. split; [apply extends_refl | reflexivity].
  - unfold bind in H.
    destruct (daily_body env today row st) as [[[]|e] st1] eqn:Hbody.
    + apply IH in H. destruct H as (Hx & Hu).
      pose proof (daily_body_effect _ _ _ _ _ _ Hbody) as (Hu1 & _).
      split; [|congruence].
      eapply extends_trans; [eapply daily_body_extends; eassumption | exact Hx].
    + inversion H; subst.
      pose proof (daily_body_effect _ _ _ _ _ _ Hbody) as (Hu1 & _).
      split; [eapply daily_body_extends; eassumption | exact Hu1].
Qed.

Lemma run_extends ev st : extends st (run ev st).
Proof.
  destruct ev as [i u k|env today uid credentials|env today row|env today]; simpl.
  - exists []. unfold on_submit.
    destruct (int64 (interaction_user_id i));
      [destruct (response_send_message i _)|]; simpl; now rewrite app_nil_r.
  - destruct (get_track env today uid credentials st) as [r st'] eqn:H.
    simpl. eapply get_track_extends; eassumption.
  - destruct (daily_body env today row st) as [r st'] eqn:H.
    simpl. eapply daily_body_extends; eassumption.
  - unfold daily_task.
    destruct (daily_loop env today (users (db st)) st) as [r st'] eqn:H.
    simpl. eapply daily_loop_extends; eassumption.
Qed.

Lemma run_all_extends evs : forall st, extends st (run_all evs st).
Proof.
  induction evs as [|ev evs IH]; intros st; simpl.
  - apply extends_refl.
  - eapply extends_trans; [apply run_extends | apply IH].
Qed.

(** C10.  The ledger is append-only: whatever the cog does after a state
    (submissions, discoveries, sweeps, in any number and order, whether they
    succeed or raise), the rows of [tracks] of that state are all still
    there, unchanged and in place, with new rows only added after them; so a
    track that is in a user's ledger stays in it. *)
Theorem ledger_append_only :
  forall evs st,
    (exists added, tracks (db (run_all evs st)) = tracks (db st) ++ added) /\
    (forall row, In row (tracks (db st)) -> In row (tracks (db (run_all evs st)))) /\
    (forall uid a n,
       select_track (db st) uid a n = true ->
       select_track (db (run_all evs st)) uid a n = true).
Proof.
  intros evs st. pose proof (run_all_extends evs st) as Hx.
  split; [exact Hx|]. split.
  - intros row Hin. destruct Hx as (added & ->). apply in_or_app. now left.
  - intros uid a n. now apply extends_select_track.
Qed.

Lemma ledger_append_only_witness :
  In (mkTrackRow 1 "2024-05-01" "a" "A")
    (tracks (db (run_all [Sweep Scenario.env "2024-05-02"; Submit (Scenario.modal 1) "me" "other";
                          Discover Scenario.env "2024-05-03" 1 Scenario.me]
                   Scenario.st))).
Proof.
  apply (proj1 (proj2 (ledger_append_only
           [Sweep Scenario.env "2024-05-02"; Submit (Scenario.modal 1) "me" "other";
            Discover Scenario.env "2024-05-03" 1 Scenario.me] Scenario.st))).
  simpl. left. reflexivity.
Defined.

Lemma row_never_returned st uid d a n :
  In (mkTrackRow uid d a n) (tracks (db st)) ->
  forall evs env today credentials t st',
    get_track env today uid credentials (run_all evs st) = (Ok (Some t), st') ->
    bind_track t <> Ok (Some a, Some n).
Proof.
  intros Hin evs env today credentials t st' Hget.
  assert (Hsel : select_track (db (run_all evs st)) uid (Some a) (Some n) = true).
  { apply (extends_select_track st); [apply run_all_extends|].
    unfold select_track. apply existsb_exists.
    exists (mkTrackRow uid d a n). split; [exact Hin|]. simpl.
    now rewrite Z.eqb_refl, !String.eqb_refl. }
  apply get_track_in_effect in Hget.
  destruct Hget as (_ & _ & a' & n' & Hp & Hs & _).
  intros Heq. rewrite Hp in Heq. inversion Heq; subst. congruence.
Qed.

(** C2.  Once the ledger holds a row for user [uid] and the track of artist
    [a] and name [n], no later call of [get_track] for [uid], whatever the
    cog has done in between, whatever the service lists and whatever the date,
    returns that track: not one whose artist and name are stored as [a] and
    [n], and so not the track of these two strings. *)
Theorem no_duplicate_delivery :
  forall st uid d a n,
    In (mkTrackRow uid d a n) (tracks (db st)) ->
    forall evs env today credentials t st',
      get_track env today uid credentials (run_all evs st) = (Ok (Some t), st') ->
      bind_track t <> Ok (Some a, Some n) /\
      t <> mkTrack (JStr a) (JStr n).
Proof.
  intros st uid d a n Hin evs env today credentials t st' Hget.
  assert (Hne : bind_track t <> Ok (Some a, Some n))
    by (eapply row_never_returned; eassumption).
  split; [exact Hne|].
  intros ->. apply Hne. reflexivity.
Qed.

Lemma no_duplicate_delivery_witness :
  bind_track (mkTrack (JStr "c") (JStr "C")) <> Ok (Some "a", Some "A") /\
  mkTrack (JStr "c") (JStr "C") <> mkTrack (JStr "a") (JStr "A").
Proof.
  apply (no_duplicate_delivery Scenario.st 1 "2024-05-01" "a" "A"
           (or_introl eq_refl) [] Scenario.env "2024-05-02" Scenario.me
           (mkTrack (JStr "c") (JStr "C"))
           (snd (get_track Scenario.env "2024-05-02" 1 Scenario.me Scenario.st))).
  reflexivity.
Defined.

(** ** What a discovery depends on *)

Lemma scan_tracks_agree uid today items :
  forall st1 st2,
    agree uid (db st1) (db st2) ->
    fst (scan_tracks uid today items st1) = fst (scan_tracks uid today items st2).
Proof.
  induction items as [|track items IH]; intros st1 st2 Hag; simpl.
  - reflexivity.
  - unfold bind, lift.
    destruct (read_track track) as [t|e]; [|reflexivity].
    destruct (bind_track t) as [[a n]|e]; [|reflexivity].
    simpl. rewrite <- (Hag a n).
    destruct (select_track (db st1) uid a n) eqn:Hs.
    + now apply IH.
    + unfold db_insert_track, insert_track. rewrite <- (Hag a n), Hs.
      destruct a, n; reflexivity.
Qed.

Lemma get_track_in_agree env today uid credentials ranges :
  forall st1 st2,
    agree uid (db st1) (db st2) ->
    fst (get_track_in env today ranges uid credentials st1) =
    fst (get_track_in env today ranges uid credentials st2).
Proof.
  induction ranges as [|range ranges IH]; intros st1 st2 Hag; simpl.
  - reflexivity.
  - unfold bind, lift, session_get.
    destruct (service env _) as [response|e]; [|reflexivity].
    destruct (read_response response) as [tr|e]; [|reflexivity].
    destruct (py_iter tr) as [items|e]; [|reflexivity].
    match goal with
    | |- context [scan_tracks uid today items ?s1] =>
        match goal with
        | |- _ = fst (match scan_tracks uid today items ?s2 with _ => _ end) =>
            pose proof (scan_tracks_agree uid today items s1 s2 Hag) as Hfst;
            destruct (scan_tracks uid today items s1) as [r1 s1'] eqn:H1;
            destruct (scan_tracks uid today items s2) as [r2 s2'] eqn:H2
        end
    end.
    simpl in Hfst. subst r2.
    destruct r1 as [[t|]|e]; try reflexivity.
    apply IH.
    apply scan_tracks_effect in H1. apply scan_tracks_effect in H2.
    destruct H1 as ((_ & _ & H1) & _). destruct H2 as ((_ & _ & H2) & _).
    simpl in H1, H2. now rewrite H1, H2.
Qed.

Lemma agree_add_row uid d r :
  user_id r <> uid -> agree uid d (add_row d r).
Proof.
  intros Hne a n. unfold select_track, add_row. simpl.
  rewrite existsb_app. simpl.
  destruct (Z.eqb_spec (user_id r) uid); [contradiction|].
  simpl. now rewrite !orb_false_r.
Qed.

(** ** Users the sweep has nothing to do for *)

Lemma select_today_add_row d uid today a n :
  select_today (add_row d (row_of uid today a n)) uid today = true.
Proof.
  unfold select_today, add_row. simpl. rewrite existsb_app. simpl.
  now rewrite Z.eqb_refl, String.eqb_refl, !orb_true_r.
Qed.

Lemma db_eq d d' : users d' = users d -> tracks d' = tracks d -> d' = d.
Proof. destruct d, d'; simpl; intros; subst; reflexivity. Qed.

Lemma quiet_unchanged env today row st st1 r :
  get_track env today (discord_id row) (credentials_of row) st = (r, st1) ->
  (forall t, r <> Ok (Some t)) ->
  quiet env today row (db st).
Proof.
  intros Hget Hr. right. intros st2 Hdb t.
  unfold get_track in *.
  rewrite (get_track_in_agree _ _ _ _ _ st2 st).
  - rewrite Hget. simpl. apply Hr.
  - rewrite Hdb. intros a n. reflexivity.
Qed.

Lemma daily_body_quiet env today row st r st' :
  daily_body env today row st = (r, st') ->
  quiet env today row (db st').
Proof.
  intros H.
  destruct (select_today (db st) (discord_id row) today) eqn:Hsel.
  { rewrite daily_body_skip in H by exact Hsel. inversion H; subst. now left. }
  destruct (get_track env today (discord_id row) (credentials_of row) st)
    as [[[t|]|e] st1] eqn:Hget;
    pose proof (get_track_in_effect _ _ _ _ _ _ _ _ Hget) as (_ & _ & Hd).
  - left. destruct Hd as (a & n & _ & _ & Hd).
    assert (Hst1 : select_today (db st1) (discord_id row) today = true)
      by (rewrite Hd; apply select_today_add_row).
    rewrite (daily_body_found _ _ _ _ _ _ Hsel Hget) in H.
    destruct (resolve_user env (discord_id row)) as [[u|]|e];
      try (inversion H; subst; exact Hst1).
    unfold send in H. destruct (webhook_send env _); inversion H; subst; exact Hst1.
  - rewrite (daily_body_none _ _ _ _ _ Hsel Hget) in H. inversion H; subst.
    rewrite Hd. eapply quiet_unchanged; [exact Hget | discriminate].
  - rewrite (daily_body_raise _ _ _ _ _ _ Hsel Hget) in H. inversion H; subst.
    simpl. rewrite Hd. eapply quiet_unchanged; [exact Hget | discriminate].
Qed.

Lemma quiet_preserved env today row uid' st st' :
  turn_effect uid' today st st' ->
  quiet env today row (db st) ->
  quiet env today row (db st').
Proof.
  intros (Hu & [(Ht & _)|(_ & a & n & _ & Ht & _)]) Hq.
  - now rewrite (db_eq _ _ Hu Ht).
  - assert (Hdb : db st' = add_row (db st) (row_of uid' today a n))
      by (apply db_eq; assumption).
    rewrite Hdb.
    destruct Hq as [Hq|Hq].
    + left. unfold select_today, add_row in *. simpl.
      now rewrite existsb_app, Hq.
    + destruct (Z.eq_dec uid' (discord_id row)) as [->|Hne].
      * left. apply select_today_add_row.
      * right. intros st2 Hst2 t.
        unfold get_track.
        rewrite (get_track_in_agree _ _ _ _ _ st2 (with_db (db st) st2)).
        -- apply (Hq (with_db (db st) st2)). reflexivity.
        -- rewrite Hst2. simpl. intros x y. symmetry.
           now apply agree_add_row.
Qed.

Lemma daily_loop_quiet_preserved env env' today row rows :
  forall st r st',
    daily_loop env' today rows st = (r, st') ->
    quiet env today row (db st) ->
    quiet env today row (db st').
Proof.
  induction rows as [|row' rows IH]; intros st r st' H Hq; simpl in H.
  - now inversion H; subst.
  - unfold bind in H.
    destruct (daily_body env' today row' st) as [[[]|e] st1] eqn:Hbody.
    + eapply IH; [exact H|].
      eapply quiet_preserved; [eapply daily_body_effect; exact Hbody | exact Hq].
    + inversion H; subst.
      eapply quiet_preserved; [eapply daily_body_effect; exact Hbody | exact Hq].
Qed.

Lemma daily_loop_leaves_quiet env today rows :
  forall st r st',
    daily_loop env today rows st = (r, st') ->
    r = Ok tt ->
    Forall (fun row => quiet env today row (db st')) rows.
Proof.
  induction rows as [|row rows IH]; intros st r st' H Hr; simpl in H.
  - constructor.
  - unfold bind in H.
    destruct (daily_body env today row st) as [[[]|e] st1] eqn:Hbody.
    + constructor.
      * eapply daily_loop_quiet_preserved; [exact H|].
        eapply daily_body_quiet; exact Hbody.
      * eapply IH; eassumption.
    + inversion H; subst. discriminate.
Qed.

Lemma daily_loop_quiet env today rows :
  forall st,
    Forall (fun row => quiet env today row (db st)) rows ->
    exists st', daily_loop env today rows st = (Ok tt, st') /\
                db st' = db st /\ sent st' = sent st.
Proof.
  induction rows as [|row rows IH]; intros st Hq; simpl.
  - exists st. auto.
  - inversion Hq as [|? ? Hrow Hrows]; subst. unfold bind.
    assert (Hbody : exists st1, daily_body env today row st = (Ok tt, st1) /\
                                db st1 = db st /\ sent st1 = sent st).
    { destruct (select_today (db st) (discord_id row) today) eqn:Hsel.
      { exists st. rewrite daily_body_skip by exact Hsel. auto. }
      destruct Hrow as [Hrow|Hrow]; [congruence|].
      specialize (Hrow st eq_refl).
      destruct (get_track env today (discord_id row) (credentials_of row) st)
        as [[[t|]|e] st1] eqn:Hget;
        pose proof (get_track_in_effect _ _ _ _ _ _ _ _ Hget) as (_ & Hm & Hd).
      - exfalso. now apply (Hrow t).
      - exists st1. rewrite (daily_body_none _ _ _ _ _ Hsel Hget). auto.
      - exists (add_error (discord_id row) e st1).
        rewrite (daily_body_raise _ _ _ _ _ _ Hsel Hget). auto. }
    destruct Hbody as (st1 & -> & Hd1 & Hm1).
    destruct (IH st1) as (st' & Hloop & Hd' & Hm').
    + now rewrite Hd1.
    + exists st'. rewrite Hloop. repeat split; congruence.
Qed.

(** ** Counting rows and messages *)

Lemma within_cap_refl uid today st : within_cap uid today st st.
Proof. unfold within_cap. lia. Qed.

Lemma within_cap_trans uid today st1 st2 st3 :
  within_cap uid today st1 st2 -> within_cap uid today st2 st3 ->
  within_cap uid today st1 st3.
Proof. unfold within_cap. lia. Qed.

Lemma select_today_false d uid today :
  select_today d uid today = false -> rows_today d uid today = 0%nat.
Proof.
  unfold select_today, rows_today.
  induction (tracks d) as [|r l IH]; simpl; [reflexivity|].
  destruct ((user_id r =? uid) && String.eqb (date r) today); simpl.
  - discriminate.
  - exact IH.
Qed.

Lemma turn_within_cap uid' today st st' uid :
  turn_effect uid' today st st' -> within_cap uid today st st'.
Proof.
  intros (_ & [(Ht & Hm)|(Hsel & a & n & _ & Ht & Hm)]); unfold within_cap.
  - unfold rows_today, sent_to. rewrite Ht, Hm. lia.
  - assert (Hrows : rows_today (db st') uid today =
                    (rows_today (db st) uid today + (if (uid' =? uid)%Z then 1 else 0))%nat).
    { unfold rows_today. rewrite Ht, filter_app, length_app. simpl.
      rewrite String.eqb_refl, andb_true_r. now destruct (uid' =? uid). }
    assert (Hsent : sent_to st' uid = sent_to st uid \/
                    sent_to st' uid = (sent_to st uid + (if (uid' =? uid)%Z then 1 else 0))%nat).
    { destruct Hm as [Hm|(m & Hm)]; [left; unfold sent_to; now rewrite Hm|].
      right. unfold sent_to. rewrite Hm, filter_app, length_app. simpl.
      now destruct (uid' =? uid). }
    destruct (Z.eqb_spec uid' uid) as [->|Hne].
    + apply select_today_false in Hsel. lia.
    + lia.
Qed.

Lemma daily_loop_within_cap env today rows uid :
  forall st r st',
    daily_loop env today rows st = (r, st') -> within_cap uid today st st'.
Proof.
  induction rows as [|row rows IH]; intros st r st' H; simpl in H.
  - inversion H; subst. apply within_cap_refl.
  - unfold bind in H.
    destruct (daily_body env today row st) as [[[]|e] st1] eqn:Hbody;
      pose proof (turn_within_cap _ _ _ _ uid (daily_body_effect _ _ _ _ _ _ Hbody)) as H1.
    + eapply within_cap_trans; [exact H1 | eapply IH; exact H].
    + now inversion H; subst.
Qed.

Lemma sweeps_within_cap today uid envs :
  forall st, within_cap uid today st (sweeps envs today st).
Proof.
  induction envs as [|env envs IH]; intros st; simpl.
  - apply within_cap_refl.
  - eapply within_cap_trans; [|apply IH].
    unfold daily_task.
    destruct (daily_loop env today (users (db st)) st) as [r st'] eqn:H.
    simpl. eapply daily_loop_within_cap; exact H.
Qed.

Lemma daily_loop_all_skipped env today rows st :
  (forall row, In row rows -> select_today (db st) (discord_id row) today = true) ->
  daily_loop env today rows st = (Ok tt, st).
Proof.
  induction rows as [|row rows IH]; intros H; simpl.
  - reflexivity.
  - unfold bind. rewrite daily_body_skip by (apply H; now left).
    apply IH. intros r Hr. apply H. now right.
Qed.

(** C3.  A sweep run again on the same day, in the same world, right after a
    sweep that ran to its end, inserts no row and sends no message; when
    every user has a row of today it skips them all, whatever the world, and
    does nothing at all.  And however many sweeps fire on one day, in
    whatever worlds and whether or not they run to their end, a user who had
    no row of that day gets at most one row of that day (one successful
    discovery) and at most one message, and never a message without a row. *)
Theorem daily_task_once_a_day :
  (forall env today st st1,
     daily_task env today st = (Ok tt, st1) ->
     exists st2,
       daily_task env today st1 = (Ok tt, st2) /\
       tracks (db st2) = tracks (db st1) /\ sent st2 = sent st1)
  /\
  (forall env today st,
     (forall row, In row (users (db st)) ->
        select_today (db st) (discord_id row) today = true) ->
     daily_task env today st = (Ok tt, st))
  /\
  (forall envs today st uid,
     rows_today (db st) uid today = 0%nat ->
     (rows_today (db (sweeps envs today st)) uid today <= 1)%nat /\
     (sent_to (sweeps envs today st) uid
      <= sent_to st uid + rows_today (db (sweeps envs today st)) uid today)%nat).
Proof.
  split; [|split].
  - intros env today st st1 H. unfold daily_task in *.
    pose proof (daily_loop_extends _ _ _ _ _ _ H) as (_ & Hu).
    pose proof (daily_loop_leaves_quiet _ _ _ _ _ _ H eq_refl) as Hq.
    rewrite Hu.
    destruct (daily_loop_quiet env today (users (db st)) st1 Hq)
      as (st2 & Hloop & Hd & Hm).
    exists st2. rewrite Hd. auto.
  - intros env today st H. unfold daily_task.
    now apply daily_loop_all_skipped.
  - intros envs today st uid H0.
    pose proof (sweeps_within_cap today uid envs st) as Hcap.
    unfold within_cap in Hcap. lia.
Qed.

Lemma daily_task_once_a_day_witness :
  (exists st2,
     daily_task Scenario.env "2024-05-02"
       (snd (daily_task Scenario.env "2024-05-02" Scenario.st)) = (Ok tt, st2) /\
     tracks (db st2) =
     tracks (db (snd (daily_task Scenario.env "2024-05-02" Scenario.st))) /\
     sent st2 = sent (snd (daily_task Scenario.env "2024-05-02" Scenario.st)))
  /\
  daily_task Scenario.env "2024-05-01" Scenario.st = (Ok tt, Scenario.st)
  /\
  (rows_today (db (sweeps [Scenario.env; Scenario.env] "2024-05-02" Scenario.st))
     1 "2024-05-02" <= 1)%nat.
Proof.
  destruct daily_task_once_a_day as (Hagain & Hskip & Hcap).
  split; [|split].
  - apply (Hagain Scenario.env "2024-05-02" Scenario.st). reflexivity.
  - apply (Hskip Scenario.env "2024-05-01" Scenario.st).
    intros row [<-|[]]. reflexivity.
  - apply (Hcap [Scenario.env; Scenario.env] "2024-05-02" Scenario.st 1). reflexivity.
Defined.

(** ** A discovery whose user cannot be found *)

Lemma rows_today_add_row d uid today a n :
  rows_today (add_row d (row_of uid today a n)) uid today =
  S (rows_today d uid today).
Proof.
  unfold rows_today, add_row. simpl. rewrite filter_app, length_app. simpl.
  rewrite Z.eqb_refl, String.eqb_refl. simpl. lia.
Qed.

(** C9.  In a turn of the sweep in which discovery returns a track, and so has
    committed its row, while looking the user up yields no user, no message is
    sent and the row stays: it is in the ledger after the turn and after
    anything the cog does later, no later discovery for that user returns the
    track, and no later sweep of that day sends the user a message.  The track
    is marked seen and was never delivered. *)
Theorem unresolved_user_keeps_row :
  forall env today row st t st1,
    select_today (db st) (discord_id row) today = false ->
    get_track env today (discord_id row) (credentials_of row) st = (Ok (Some t), st1) ->
    (forall u, resolve_user env (discord_id row) <> Ok (Some u)) ->
    exists r a n,
      daily_body env today row st = (r, st1) /\
      sent st1 = sent st /\
      bind_track t = Ok (Some a, Some n) /\
      (forall evs,
         In (row_of (discord_id row) today a n) (tracks (db (run_all evs st1))) /\
         forall env' today' credentials t' st',
           get_track env' today' (discord_id row) credentials (run_all evs st1)
           = (Ok (Some t'), st') ->
           bind_track t' <> Ok (Some a, Some n)) /\
      (forall envs, sent_to (sweeps envs today st1) (discord_id row)
                    = sent_to st (discord_id row)).
Proof.
  intros env today row st t st1 Hsel Hget Hno.
  pose proof (get_track_in_effect _ _ _ _ _ _ _ _ Hget) as (_ & Hm & a & n & Hp & _ & Hd).
  assert (Hin : In (row_of (discord_id row) today a n) (tracks (db st1))).
  { rewrite Hd. simpl. apply in_or_app. right. now left. }
  assert (Hbody : exists r, daily_body env today row st = (r, st1)).
  { rewrite (daily_body_found _ _ _ _ _ _ Hsel Hget).
    destruct (resolve_user env (discord_id row)) as [[u|]|e]; eauto.
    exfalso. now apply (Hno u). }
  destruct Hbody as (r & Hbody). exists r, a, n.
  repeat split; try assumption.
  - destruct (run_all_extends evs st1) as (added & ->). apply in_or_app. now left.
  - intros env' today' credentials t' st'.
    apply (row_never_returned st1 (discord_id row) today a n Hin).
  - intros envs.
    pose proof (sweeps_within_cap today (discord_id row) envs st1) as Hcap.
    unfold within_cap in Hcap.
    assert (Hone : rows_today (db st1) (discord_id row) today
                   = S (rows_today (db st) (discord_id row) today))
      by (rewrite Hd; apply rows_today_add_row).
    assert (Hs : sent_to st1 (discord_id row) = sent_to st (discord_id row))
      by (unfold sent_to; now rewrite Hm).
    lia.
Qed.

Lemma unresolved_user_keeps_row_witness :
  exists r a n,
    daily_body Scenario.env "2024-05-02" Scenario.shy Scenario.newcomers =
    (r, snd (get_track Scenario.env "2024-05-02" 2 (credentials_of Scenario.shy)
               Scenario.newcomers)) /\
    sent (snd (get_track Scenario.env "2024-05-02" 2 (credentials_of Scenario.shy)
                 Scenario.newcomers)) = sent Scenario.newcomers /\
    bind_track (mkTrack (JStr "a") (JStr "A")) = Ok (Some a, Some n).
Proof.
  destruct (unresolved_user_keeps_row Scenario.env "2024-05-02" Scenario.shy
              Scenario.newcomers (mkTrack (JStr "a") (JStr "A"))
              (snd (get_track Scenario.env "2024-05-02" 2
                      (credentials_of Scenario.shy) Scenario.newcomers)))
    as (r & a & n & Hbody & Hsent & Hbind & _).
  - reflexivity.
  - reflexivity.
  - intros u. discriminate.
  - exists r, a, n. auto.
Defined.

(** ** Failures during a sweep *)

(** A discovery that raises is logged, and the sweep goes on with the next
    user. *)
Lemma daily_loop_discovery_failure env today row rows st e st1 :
  select_today (db st) (discord_id row) today = false ->
  get_track env today (discord_id row) (credentials_of row) st = (Raise e, st1) ->
  daily_loop env today (row :: rows) st =
  daily_loop env today rows (add_error (discord_id row) e st1).
Proof.
  intros Hsel Hget. simpl. unfold bind.
  now rewrite (daily_body_raise _ _ _ _ _ _ Hsel Hget).
Qed.

(** C6, where the code departs from it.  Two users are registered and each
    has a track to discover.  Discovery for the first succeeds and commits
    its row; looking the user up then raises, nothing catches it, and the
    sweep ends there: the second user is never visited (no request for them,
    no row, no message), though a turn for them alone discovers and delivers
    a track. *)
Theorem daily_task_stops_at_failed_lookup :
  daily_task Scenario.env "2024-05-02" Scenario.newcomers =
  (Raise DiscordError,
   mkState
     (mkDB [mkUserRow 0 "ghost" "key0"; mkUserRow 1 "me" "key"]
        [mkTrackRow 0 "2024-05-02" "a" "A"])
     [mkRequest "ghost" "key0" "7day"] [] [])
  /\
  daily_body Scenario.env "2024-05-02" (mkUserRow 1 "me" "key") Scenario.newcomers =
  (Ok tt,
   mkState
     (mkDB [mkUserRow 0 "ghost" "key0"; mkUserRow 1 "me" "key"]
        [mkTrackRow 1 "2024-05-02" "a" "A"])
     [mkRequest "me" "key" "7day"] []
     [(1, message_for Scenario.env Scenario.alice (mkTrack (JStr "a") (JStr "A")))]).
Proof. split; reflexivity. Qed.

(** ** get_credentials *)















(** * More of the cog *)

(** ** Submitting credentials *)

Lemma find_upsert row rows :
  find (fun r => discord_id r =? discord_id row) (upsert row rows) = Some row.
Proof.
  induction rows as [|r rows IH]; simpl.
  - now rewrite Z.eqb_refl.
  - destruct (discord_id row <? discord_id r); simpl.
    + now rewrite Z.eqb_refl.
    + destruct (discord_id row =? discord_id r) eqn:He; simpl.
      * now rewrite Z.eqb_refl.
      * rewrite Z.eqb_sym, He. exact IH.
Qed.

Lemma find_upsert_other row rows uid :
  discord_id row <> uid ->
  find (fun r => discord_id r =? uid) (upsert row rows) =
  find (fun r => discord_id r =? uid) rows.
Proof.
  intros Hne. apply Z.eqb_neq in Hne.
  induction rows as [|r rows IH]; simpl.
  - now rewrite Hne.
  - destruct (discord_id row <? discord_id r); simpl.
    + now rewrite Hne.
    + destruct (Z.eqb_spec (discord_id row) (discord_id r)) as [He|He]; simpl.
      * rewrite Hne, <- He, Hne. reflexivity.
      * now rewrite IH.
Qed.

Lemma upsert_upsert r1 r2 rows :
  discord_id r1 = discord_id r2 ->
  upsert r2 (upsert r1 rows) = upsert r2 rows.
Proof.
  intros He. induction rows as [|r rows IH]; simpl.
  - now rewrite He, Z.ltb_irrefl, Z.eqb_refl.
  - rewrite He.
    destruct (discord_id r2 <? discord_id r) eqn:Hlt; simpl.
    + now rewrite He, Z.ltb_irrefl, Z.eqb_refl.
    + destruct (discord_id r2 =? discord_id r) eqn:Heq; simpl.
      * now rewrite He, Z.ltb_irrefl, Z.eqb_refl.
      * now rewrite Hlt, Heq, IH.
Qed.

(** X1.  Credentials that are submitted are the credentials read back.  For
    a user whose id fits 64 bits, after [on_submit] the credentials that
    [get_credentials] returns for that user are the username and key just
    given, whatever was stored before and wherever in the table, also when
    the answer to the interaction could not be sent: the commit comes first.
    The result is the text "Credentials saved" that was sent, or the
    exception of the sending.  For an id that does not fit, [on_submit]
    raises [OverflowError] and leaves the cog as it was.  In no case does a
    submission touch the ledger, the requests, the log or the messages. *)
Theorem on_submit_then_get_credentials :
  (forall interaction u k st,
     int64 (interaction_user_id interaction) = true ->
     get_credentials (db (snd (on_submit interaction u k st)))
       (interaction_user_id interaction)
     = Ok (Some (mkCredentials u k)) /\
     fst (on_submit interaction u k st)
     = match response_send_message interaction "Credentials saved" with
       | None => Ok "Credentials saved"
       | Some e => Raise e
       end)
  /\
  (forall interaction u k st,
     int64 (interaction_user_id interaction) = false ->
     on_submit interaction u k st = (Raise OverflowError, st))
  /\
  (forall interaction u k st,
     tracks (db (snd (on_submit interaction u k st))) = tracks (db st) /\
     requests (snd (on_submit interaction u k st)) = requests st /\
     errors (snd (on_submit interaction u k st)) = errors st /\
     sent (snd (on_submit interaction u k st)) = sent st).
Proof.
  split; [|split].
  - intros i u k st Hfit. unfold on_submit. rewrite Hfit.
    pose proof (find_upsert (mkUserRow (interaction_user_id i) u k) (users (db st))) as H.
    simpl in H.
    destruct (response_send_message i "Credentials saved"); simpl;
      (split; [|reflexivity]);
      unfold get_credentials, select_credentials; simpl; now rewrite Hfit, H.
  - intros i u k st Hfit. unfold on_submit. now rewrite Hfit.
  - intros i u k st. unfold on_submit.
    destruct (int64 (interaction_user_id i));
      [destruct (response_send_message i "Credentials saved")|]; simpl; auto.
Qed.

Lemma on_submit_then_get_credentials_witness :
  get_credentials (db (snd (on_submit (Scenario.modal 7) "new" "key7" Scenario.st))) 7
  = Ok (Some (mkCredentials "new" "key7")) /\
  on_submit (Scenario.modal (2 ^ 63)) "new" "key7" Scenario.st
  = (Raise OverflowError, Scenario.st).
Proof.
  destruct on_submit_then_get_credentials as (Hstored & Hrefused & _).
  split.
  - apply (Hstored (Scenario.modal 7) "new" "key7" Scenario.st). reflexivity.
  - apply (Hrefused (Scenario.modal (2 ^ 63)) "new" "key7" Scenario.st). reflexivity.
Defined.

(** X2.  A submission touches the credentials of its own user only: what
    [get_credentials] returns for any other user is what it returned
    before. *)
Theorem on_submit_other_user :
  forall interaction u k st uid',
    uid' <> interaction_user_id interaction ->
    get_credentials (db (snd (on_submit interaction u k st))) uid'
    = get_credentials (db st) uid'.
Proof.
  intros i u k st uid' Hne. unfold get_credentials, select_credentials, on_submit.
  destruct (int64 (interaction_user_id i));
    [destruct (response_send_message i "Credentials saved")|]; simpl;
    try reflexivity;
    rewrite find_upsert_other by (simpl; congruence); reflexivity.
Qed.

Lemma on_submit_other_user_witness :
  get_credentials (db (snd (on_submit (Scenario.modal 7) "new" "key7" Scenario.st))) 1
  = get_credentials (db Scenario.st) 1.
Proof.
  apply (on_submit_other_user (Scenario.modal 7) "new" "key7" Scenario.st 1).
  simpl. lia.
Defined.

(** X3.  Submitting again replaces: of two submissions in a row for one user
    only the second one counts, the cog being left as by the second alone; so
    submitting the same credentials twice is submitting them once. *)
Theorem on_submit_last_wins :
  forall uid answer1 answer2 u1 k1 u2 k2 st,
    snd (on_submit (mkInteraction uid answer2) u2 k2
           (snd (on_submit (mkInteraction uid answer1) u1 k1 st)))
    = snd (on_submit (mkInteraction uid answer2) u2 k2 st).
Proof.
  intros uid answer1 answer2 u1 k1 u2 k2 st.
  unfold on_submit, with_db, replace_user. simpl.
  destruct (int64 uid); [|reflexivity].
  destruct (answer1 "Credentials saved"), (answer2 "Credentials saved"); simpl;
    now rewrite upsert_upsert.
Qed.

(** ** Invariants of the two tables *)

Lemma upsert_above x row rows :
  x < discord_id row ->
  Forall (Z.lt x) (map discord_id rows) ->
  Forall (Z.lt x) (map discord_id (upsert row rows)).
Proof.
  intros Hx. induction rows as [|r rows IH]; intros H; simpl.
  - repeat constructor. exact Hx.
  - inversion H as [|? ? Hr Hrows]; subst.
    destruct (discord_id row <? discord_id r); simpl.
    + constructor; [exact Hx | exact H].
    + destruct (discord_id row =? discord_id r); simpl.
      * constructor; assumption.
      * constructor; [exact Hr | now apply IH].
Qed.

Lemma upsert_sorted row rows :
  StronglySorted Z.lt (map discord_id rows) ->
  StronglySorted Z.lt (map discord_id (upsert row rows)).
Proof.
  induction rows as [|r rows IH]; intros H; simpl.
  - repeat constructor.
  - apply StronglySorted_inv in H. destruct H as (Hs & Hall).
    destruct (discord_id row <? discord_id r) eqn:Hlt; simpl.
    + apply Z.ltb_lt in Hlt. constructor.
      * constructor; assumption.
      * constructor; [exact Hlt|].
        eapply Forall_impl; [|exact Hall]. intros y Hy. lia.
    + apply Z.ltb_ge in Hlt.
      destruct (Z.eqb_spec (discord_id row) (discord_id r)) as [He|He]; simpl.
      * constructor; [exact Hs | now rewrite He].
      * constructor; [now apply IH|].
        apply upsert_above; [lia | exact Hall].
Qed.

Lemma sorted_nodup (l : list Z) : StronglySorted Z.lt l -> NoDup l.
Proof.
  induction 1 as [|x l _ IH Hall]; constructor; [|exact IH].
  intros Hin. rewrite Forall_forall in Hall. specialize (Hall x Hin). lia.
Qed.

Lemma run_users ev st :
  no_submit ev -> users (db (run ev st)) = users (db st).
Proof.
  destruct ev as [uid u k|env today uid credentials|env today row|env today];
    simpl; intros H.
  - contradiction.
  - destruct (get_track env today uid credentials st) as [r st'] eqn:Hget.
    apply get_track_in_effect in Hget. destruct Hget as (_ & _ & Hd). simpl.
    destruct r as [[t|]|e]; try now rewrite Hd.
    destruct Hd as (a & n & _ & _ & Hd). now rewrite Hd.
  - destruct (daily_body env today row st) as [r st'] eqn:Hbody.
    apply daily_body_effect in Hbody. simpl. apply Hbody.
  - unfold daily_task.
    destruct (daily_loop env today (users (db st)) st) as [r st'] eqn:Hloop.
    apply daily_loop_extends in Hloop. simpl. apply Hloop.
Qed.

Lemma run_users_sorted ev st :
  users_sorted (db st) -> users_sorted (db (run ev st)).
Proof.
  unfold users_sorted. intros H.
  destruct ev as [i u k|env today uid credentials|env today row|env today].
  - simpl. unfold on_submit.
    destruct (int64 (interaction_user_id i));
      [destruct (response_send_message i _)|]; simpl;
      try exact H; now apply upsert_sorted.
  - now rewrite run_users.
  - now rewrite run_users.
  - now rewrite run_users.
Qed.

(** X4.  The table of users keeps the order and the uniqueness of its primary
    key: from a table whose ids rise strictly (the empty one, to begin with),
    whatever the cog does, submissions included, the ids still rise strictly
    and no id occurs twice; so a sweep visits nobody twice. *)
Theorem users_stay_sorted :
  forall evs st,
    users_sorted (db st) ->
    users_sorted (db (run_all evs st)) /\
    NoDup (map discord_id (users (db (run_all evs st)))).
Proof.
  intros evs st H.
  assert (Hs : users_sorted (db (run_all evs st))).
  { revert st H. induction evs as [|ev evs IH]; intros st H; simpl.
    - exact H.
    - apply IH. now apply run_users_sorted. }
  split; [exact Hs | now apply sorted_nodup].
Qed.

Lemma users_stay_sorted_witness :
  NoDup (map discord_id
           (users (db (run_all [Submit (Scenario.modal 9) "z" "k9"; Submit (Scenario.modal 3) "c" "k3";
                                Sweep Scenario.env "2024-05-02"; Submit (Scenario.modal 9) "y" "k"]
                         (mkState empty_db [] [] []))))).
Proof.
  apply (users_stay_sorted
           [Submit (Scenario.modal 9) "z" "k9"; Submit (Scenario.modal 3) "c" "k3";
            Sweep Scenario.env "2024-05-02"; Submit (Scenario.modal 9) "y" "k"]
           (mkState empty_db [] [] [])).
  constructor.
Defined.

(** X19.  Stored credentials are read-only outside the modal: a history with
    no submission in it (discoveries, turns and sweeps, in any worlds, ending
    well or not) leaves the table of users as it was, and so what
    [get_credentials] returns for every user. *)
Theorem credentials_only_change_on_submit :
  forall evs st,
    Forall no_submit evs ->
    users (db (run_all evs st)) = users (db st) /\
    forall uid, get_credentials (db (run_all evs st)) uid = get_credentials (db st) uid.
Proof.
  intros evs st H.
  assert (Hu : users (db (run_all evs st)) = users (db st)).
  { revert st. induction H as [|ev evs Hev _ IH]; intros st; simpl.
    - reflexivity.
    - rewrite IH. now apply run_users. }
  split; [exact Hu|].
  intros uid. unfold get_credentials, select_credentials. now rewrite Hu.
Qed.

Lemma credentials_only_change_on_submit_witness :
  users (db (run_all [Sweep Scenario.env "2024-05-02";
                      Discover Scenario.env "2024-05-03" 1 Scenario.me]
               Scenario.st))
  = users (db Scenario.st).
Proof.
  apply (credentials_only_change_on_submit
           [Sweep Scenario.env "2024-05-02";
            Discover Scenario.env "2024-05-03" 1 Scenario.me] Scenario.st).
  repeat constructor.
Defined.

Lemma select_track_false_key d uid a n :
  select_track d uid (Some a) (Some n) = false ->
  ~ In (uid, a, n) (map track_key (tracks d)).
Proof.
  unfold select_track. intros H Hin.
  apply in_map_iff in Hin. destruct Hin as (r & Hk & Hr).
  assert (Ht : existsb (fun r => (user_id r =? uid) && sql_eq (track_artist r) (Some a)
                                 && sql_eq (track_name r) (Some n)) (tracks d) = true).
  { apply existsb_exists. exists r. split; [exact Hr|].
    unfold track_key in Hk. inversion Hk; subst. simpl.
    now rewrite Z.eqb_refl, !String.eqb_refl. }
  congruence.
Qed.

Lemma nodup_snoc {A} (l : list A) (x : A) :
  NoDup l -> ~ In x l -> NoDup (l ++ [x]).
Proof.
  induction 1 as [|y l Hy _ IH]; intros Hx; simpl.
  - repeat constructor. intros [].
  - constructor.
    + rewrite in_app_iff. intros [H|[H|[]]]; [contradiction|].
      subst. apply Hx. now left.
    + apply IH. intros H. apply Hx. now right.
Qed.

Lemma keys_unique_add_row d uid today a n :
  keys_unique d ->
  select_track d uid (Some a) (Some n) = false ->
  NoDup (map track_key (tracks d ++ [row_of uid today a n])).
Proof.
  intros Hk Hs. rewrite map_app. simpl.
  apply nodup_snoc; [exact Hk|].
  now apply select_track_false_key.
Qed.

Lemma daily_body_keys_unique env today row st r st' :
  daily_body env today row st = (r, st') ->
  keys_unique (db st) -> keys_unique (db st').
Proof.
  intros Hbody Hk. apply daily_body_effect in Hbody.
  destruct Hbody as (_ & [(Ht & _)|(_ & a & n & Hs & Ht & _)]);
    unfold keys_unique; rewrite Ht; [exact Hk|].
  now apply keys_unique_add_row.
Qed.

Lemma daily_loop_keys_unique env today rows :
  forall st r st',
    daily_loop env today rows st = (r, st') ->
    keys_unique (db st) -> keys_unique (db st').
Proof.
  induction rows as [|row rows IH]; intros st r st' H Hk; simpl in H.
  - now inversion H; subst.
  - unfold bind in H.
    destruct (daily_body env today row st) as [r1 st1] eqn:Hbody.
    pose proof (daily_body_keys_unique _ _ _ _ _ _ Hbody Hk) as Hk1.
    destruct r1 as [[]|e].
    + eapply IH; eassumption.
    + now inversion H; subst.
Qed.

Lemma run_keys_unique ev st :
  keys_unique (db st) -> keys_unique (db (run ev st)).
Proof.
  intros Hk.
  destruct ev as [i u k|env today uid credentials|env today row|env today]; simpl.
  - unfold on_submit.
    destruct (int64 (interaction_user_id i));
      [destruct (response_send_message i _)|]; exact Hk.
  - destruct (get_track env today uid credentials st) as [r st'] eqn:Hget.
    apply get_track_in_effect in Hget. destruct Hget as (_ & _ & Hd). simpl.
    destruct r as [[t|]|e]; try now rewrite Hd.
    destruct Hd as (a & n & _ & Hs & Hd). rewrite Hd.
    now apply keys_unique_add_row.
  - destruct (daily_body env today row st) as [r st'] eqn:Hbody.
    simpl. eapply daily_body_keys_unique; eassumption.
  - unfold daily_task.
    destruct (daily_loop env today (users (db st)) st) as [r st'] eqn:Hloop.
    simpl. eapply daily_loop_keys_unique; eassumption.
Qed.

(** X5.  The primary key of the ledger is never violated: from a ledger in
    which no two rows share user, artist and name, whatever the cog does,
    no two rows share them.  A track is recorded for a user once, ever. *)
Theorem ledger_keys_stay_unique :
  forall evs st,
    keys_unique (db st) -> keys_unique (db (run_all evs st)).
Proof.
  induction evs as [|ev evs IH]; intros st H; simpl.
  - exact H.
  - apply IH. now apply run_keys_unique.
Qed.

Lemma ledger_keys_stay_unique_witness :
  keys_unique
    (db (run_all [Sweep Scenario.env "2024-05-02"; Sweep Scenario.env "2024-05-03";
                  Discover Scenario.env "2024-05-03" 1 Scenario.me]
           Scenario.st)).
Proof.
  apply (ledger_keys_stay_unique
           [Sweep Scenario.env "2024-05-02"; Sweep Scenario.env "2024-05-03";
            Discover Scenario.env "2024-05-03" 1 Scenario.me] Scenario.st).
  unfold keys_unique. simpl. repeat constructor. intros [].
Defined.

(** ** Discovery in general *)

Lemma bind_track_some t a n :
  bind_track t = Ok (Some a, Some n) ->
  adapt (artist t) = Ok (Some a) /\ adapt (name t) = Ok (Some n).
Proof.
  unfold bind_track, rbind.
  destruct (adapt (artist t)) as [a'|e]; [|discriminate].
  destruct (adapt (name t)) as [n'|e]; [|discriminate].
  intros H. inversion H; subst. auto.
Qed.

(** X6.  What any call of [get_track] does, in any world.  It never touches
    the users, the log or the messages.  When it returns a track, the ledger
    has gained exactly one row, at its end: the row of the caller's user id,
    today's date and the text SQLite stores for the track's artist and name,
    a row that was not there before.  When it returns [None] or raises, the
    ledger is untouched. *)
Theorem get_track_effect :
  forall env today uid credentials st r st',
    get_track env today uid credentials st = (r, st') ->
    users (db st') = users (db st) /\
    errors st' = errors st /\
    sent st' = sent st /\
    match r with
    | Ok (Some t) =>
        exists a n,
          adapt (artist t) = Ok (Some a) /\
          adapt (name t) = Ok (Some n) /\
          select_track (db st) uid (Some a) (Some n) = false /\
          tracks (db st') = tracks (db st) ++ [mkTrackRow uid today a n]
    | _ => tracks (db st') = tracks (db st)
    end.
Proof.
  intros env today uid credentials st r st' H.
  apply get_track_in_effect in H. destruct H as (He & Hm & Hd).
  destruct r as [[t|]|e]; try (rewrite Hd; auto).
  destruct Hd as (a & n & Hp & Hs & Hd). rewrite Hd. simpl.
  repeat split; try assumption.
  apply bind_track_some in Hp. exists a, n. tauto.
Qed.

Lemma get_track_effect_witness :
  users (db (snd (get_track Scenario.env "2024-05-02" 1 Scenario.me Scenario.st)))
  = users (db Scenario.st).
Proof.
  apply (get_track_effect Scenario.env "2024-05-02" 1 Scenario.me Scenario.st
           (fst (get_track Scenario.env "2024-05-02" 1 Scenario.me Scenario.st))
           (snd (get_track Scenario.env "2024-05-02" 1 Scenario.me Scenario.st))).
  reflexivity.
Defined.

Lemma get_track_in_requests env today uid credentials ranges :
  forall st r st',
    get_track_in env today ranges uid credentials st = (r, st') ->
    exists k,
      (k <= List.length ranges)%nat /\
      (ranges <> [] -> (1 <= k)%nat) /\
      requests st' = requests st ++ map (request_of credentials) (firstn k ranges).
Proof.
  induction ranges as [|range ranges IH]; intros st r st' H; simpl in H.
  - inversion H; subst. exists 0%nat. simpl. rewrite app_nil_r.
    repeat split; [lia | congruence].
  - assert (Hone : forall s : State,
              requests s = requests st ++ [request_of credentials range] ->
              exists k, (k <= List.length (range :: ranges))%nat /\
                        (range :: ranges <> [] -> (1 <= k)%nat) /\
                        requests s = requests st ++
                          map (request_of credentials) (firstn k (range :: ranges))).
    { intros s Hs. exists 1%nat. simpl. repeat split; [lia | lia | exact Hs]. }
    unfold bind, lift, session_get in H. fold (request_of credentials range) in H.
    destruct (service env _) as [response|e].
    2:{ inversion H; subst. now apply Hone. }
    destruct (read_response response) as [tr|e].
    2:{ inversion H; subst. now apply Hone. }
    destruct (py_iter tr) as [items|e].
    2:{ inversion H; subst. now apply Hone. }
    match type of H with
    | context [scan_tracks ?u ?d ?i ?s] =>
        destruct (scan_tracks u d i s) as [r1 st1] eqn:Hscan
    end.
    apply scan_tracks_effect in Hscan. destruct Hscan as [_ Hrq]. simpl in Hrq.
    destruct r1 as [[t|]|e].
    + inversion H; subst. now apply Hone.
    + apply IH in H. destruct H as (k & Hk & _ & Hreq).
      exists (S k). simpl. repeat split; [lia | lia |].
      rewrite Hreq, Hrq, <- app_assoc. reflexivity.
    + inversion H; subst. now apply Hone.
Qed.

(** X7.  A discovery asks the service at least once and at most six times:
    the requests it adds are those for the first [k] ranges of [TIME_RANGES],
    in that order and each once, all with the caller's username and key. *)
Theorem get_track_requests :
  forall env today uid credentials st r st',
    get_track env today uid credentials st = (r, st') ->
    exists k,
      (1 <= k <= 6)%nat /\
      requests st' = requests st ++ map (request_of credentials) (firstn k TIME_RANGES).
Proof.
  intros env today uid credentials st r st' H.
  apply get_track_in_requests in H. destruct H as (k & Hk & H1 & Hreq).
  exists k. split; [|exact Hreq]. split.
  - apply H1. discriminate.
  - exact Hk.
Qed.

Lemma get_track_requests_witness :
  exists k,
    (1 <= k <= 6)%nat /\
    requests (snd (get_track Scenario.env "2024-05-02" 1 Scenario.me Scenario.st))
    = requests Scenario.st ++ map (request_of Scenario.me) (firstn k TIME_RANGES).
Proof.
  apply (get_track_requests Scenario.env "2024-05-02" 1 Scenario.me Scenario.st
           (fst (get_track Scenario.env "2024-05-02" 1 Scenario.me Scenario.st))).
  reflexivity.
Defined.

Lemma agree_others uid d others :
  Forall (fun r => user_id r <> uid) others ->
  agree uid d (mkDB (users d) (tracks d ++ others)).
Proof.
  intros H a n. unfold select_track. simpl. rewrite existsb_app.
  replace (existsb _ others) with false; [now rewrite orb_false_r|].
  symmetry. induction H as [|r others Hr _ IH]; simpl; [reflexivity|].
  destruct (Z.eqb_spec (user_id r) uid); [contradiction|]. exact IH.
Qed.

(** X8.  The ledger is per user: rows of other users, however many and
    whatever their tracks, change nothing in what a discovery for a user
    returns or raises.  A track delivered to one user is still new to
    another. *)
Theorem get_track_ignores_other_users :
  forall env today uid credentials st others,
    Forall (fun r => user_id r <> uid) others ->
    fst (get_track env today uid credentials
           (with_db (mkDB (users (db st)) (tracks (db st) ++ others)) st))
    = fst (get_track env today uid credentials st).
Proof.
  intros env today uid credentials st others H. unfold get_track.
  apply get_track_in_agree. simpl. intros a n. symmetry.
  now apply agree_others.
Qed.

Lemma get_track_ignores_other_users_witness :
  fst (get_track Scenario.env "2024-05-02" 1 Scenario.me
         (with_db (mkDB (users (db Scenario.st))
                     (tracks (db Scenario.st) ++ [mkTrackRow 2 "2024-05-01" "c" "C"]))
            Scenario.st))
  = fst (get_track Scenario.env "2024-05-02" 1 Scenario.me Scenario.st).
Proof.
  apply (get_track_ignores_other_users Scenario.env "2024-05-02" 1 Scenario.me
           Scenario.st [mkTrackRow 2 "2024-05-01" "c" "C"]).
  repeat constructor. simpl. lia.
Defined.

(** ** Reading what the service sent *)

(** X9.  Reading a response succeeds in one case only, and then returns the
    [track] member as it is, of whatever shape: the status is below 400 and
    the body is a JSON object without an [error] member whose [toptracks]
    member is an object that has a [track] member. *)
Theorem read_response_ok_iff :
  forall r x,
    read_response r = Ok x <->
    status r < 400 /\
    exists members top,
      body r = Some (JObj members) /\
      has_key "error" members = false /\
      lookup "toptracks" members = Some (JObj top) /\
      lookup "track" top = Some x.
Proof.
  intros r x. unfold read_response.
  destruct (400 <=? status r) eqn:Hst.
  { apply Z.leb_le in Hst. split; [discriminate | intros (H & _); lia]. }
  apply Z.leb_gt in Hst.
  destruct (body r) as [data|].
  2:{ split; [discriminate | intros (_ & m & top & H & _); discriminate]. }
  destruct data as [| b | z | s | items | members];
    try (split;
         [ simpl;
           repeat match goal with
                  | |- context [if ?c then _ else _] => destruct c
                  end; simpl; discriminate
         | intros (_ & m & top & H & _); discriminate ]).
  simpl. destruct (has_key "error" members) eqn:Herr.
  - split.
    + destruct (lookup "message" members); simpl; discriminate.
    + intros (_ & m & top & H & Hk & _). inversion H; subst. congruence.
  - destruct (lookup "toptracks" members) as [tt|] eqn:Htop; simpl.
    2:{ split; [discriminate|].
        intros (_ & m & top & H & _ & Ht & _). inversion H; subst. congruence. }
    destruct tt as [| | | | |top];
      try (split; [discriminate|];
           intros (_ & m & top' & H & _ & Ht & _); inversion H; subst; congruence).
    simpl. destruct (lookup "track" top) as [y|] eqn:Hy.
    + split.
      * intros H. inversion H; subst. split; [exact Hst|].
        exists members, top. auto.
      * intros (_ & m & top' & H & _ & Ht & Hx). inversion H; subst.
        rewrite Htop in Ht. inversion Ht; subst. congruence.
    + split; [discriminate|].
      intros (_ & m & top' & H & _ & Ht & Hx). inversion H; subst.
      rewrite Htop in Ht. inversion Ht; subst. congruence.
Qed.

Lemma read_response_ok_iff_witness :
  read_response (Scenario.document [Scenario.entry "a" "A"])
  = Ok (JArr [Scenario.entry "a" "A"]).
Proof.
  apply (proj2 (read_response_ok_iff (Scenario.document [Scenario.entry "a" "A"])
                  (JArr [Scenario.entry "a" "A"]))).
  split; [simpl; lia|].
  eexists _, _. repeat split; reflexivity.
Defined.

(** X10.  Which exception a bad response raises.  The status is looked at
    first: 400 or more raises [ClientResponseError] even when the body holds
    an error payload.  Then, in this order: a body that is no JSON raises
    [JSONError]; an [error] member without a [message] member raises
    [KeyError('message')], not [APIError]; an object with neither [error] nor
    [toptracks] raises [KeyError('toptracks')]; a [toptracks] object without
    [track] raises [KeyError('track')]; a [null], boolean or number in place
    of the document raises [TypeError]. *)
Theorem read_response_exceptions :
  (forall r, 400 <= status r ->
     read_response r = Raise (ClientResponseError (status r)))
  /\
  (forall r, status r < 400 -> body r = None ->
     read_response r = Raise JSONError)
  /\
  (forall r members, status r < 400 -> body r = Some (JObj members) ->
     has_key "error" members = true -> lookup "message" members = None ->
     read_response r = Raise (KeyError "message"))
  /\
  (forall r members, status r < 400 -> body r = Some (JObj members) ->
     has_key "error" members = false -> lookup "toptracks" members = None ->
     read_response r = Raise (KeyError "toptracks"))
  /\
  (forall r members top, status r < 400 -> body r = Some (JObj members) ->
     has_key "error" members = false ->
     lookup "toptracks" members = Some (JObj top) -> lookup "track" top = None ->
     read_response r = Raise (KeyError "track"))
  /\
  (forall r data, status r < 400 -> body r = Some data ->
     (data = JNull \/ (exists b, data = JBool b) \/ (exists z, data = JInt z)) ->
     read_response r = Raise TypeError).
Proof.
  assert (Hlt : forall r, status r < 400 -> (400 <=? status r) = false)
    by (intros r H; now apply Z.leb_gt).
  unfold read_response. repeat split.
  - intros r H. apply Z.leb_le in H. now rewrite H.
  - intros r H Hb. now rewrite (Hlt r H), Hb.
  - intros r members H Hb He Hm. rewrite (Hlt r H), Hb. simpl. now rewrite He, Hm.
  - intros r members H Hb He Ht. rewrite (Hlt r H), Hb. simpl. now rewrite He, Ht.
  - intros r members top H Hb He Ht Hx. rewrite (Hlt r H), Hb. simpl.
    rewrite He, Ht. simpl. now rewrite Hx.
  - intros r data H Hb [->|[(b & ->)|(z & ->)]]; now rewrite (Hlt r H), Hb.
Qed.

Lemma read_response_exceptions_witness :
  read_response (mkResponse 404 (Some (JObj [("error", JInt 6); ("message", JStr "no")])))
  = Raise (ClientResponseError 404) /\
  read_response (mkResponse 200 (Some (JObj [("error", JInt 6)])))
  = Raise (KeyError "message") /\
  read_response (mkResponse 200 (Some (JObj [("toptracks", JObj [])])))
  = Raise (KeyError "track").
Proof.
  destruct read_response_exceptions as (H1 & _ & H3 & _ & H5 & _).
  split; [|split].
  - apply (H1 (mkResponse 404 (Some (JObj [("error", JInt 6); ("message", JStr "no")])))).
    simpl. lia.
  - apply (H3 (mkResponse 200 (Some (JObj [("error", JInt 6)]))) [("error", JInt 6)]);
      [simpl; lia | reflexivity | reflexivity | reflexivity].
  - apply (H5 (mkResponse 200 (Some (JObj [("toptracks", JObj [])])))
             [("toptracks", JObj [])] []);
      [simpl; lia | reflexivity | reflexivity | reflexivity | reflexivity].
Defined.

(** X11.  An entry of the listing reads as a track exactly when it is an
    object whose [artist] member is an object with a [name] member and which
    has a [name] member of its own; the track is then made of these two
    values as they are, strings or not.  An entry that is not an object
    raises [TypeError], one without [artist] raises [KeyError('artist')]
    before its [name] is looked at. *)
Theorem read_track_ok_iff :
  (forall track t,
     read_track track = Ok t <->
     exists members about,
       track = JObj members /\
       lookup "artist" members = Some (JObj about) /\
       lookup "name" about = Some (artist t) /\
       lookup "name" members = Some (name t))
  /\
  (forall track, (forall members, track <> JObj members) ->
     read_track track = Raise TypeError)
  /\
  (forall members, lookup "artist" members = None ->
     read_track (JObj members) = Raise (KeyError "artist")).
Proof.
  split; [|split].
  - intros track [a n]. unfold read_track. simpl. split.
    + destruct track as [| | | | |members]; simpl; try discriminate.
      destruct (lookup "artist" members) as [ab|] eqn:Ha; simpl; [|discriminate].
      destruct ab as [| | | | |about]; simpl; try discriminate.
      destruct (lookup "name" about) as [x|] eqn:Hx; simpl; [|discriminate].
      destruct (lookup "name" members) as [y|] eqn:Hy; simpl; [|discriminate].
      intros H. inversion H; subst. exists members, about. auto.
    + intros (members & about & -> & Ha & Hx & Hy). simpl.
      rewrite Ha. simpl. rewrite Hx. simpl. now rewrite Hy.
  - intros track H. unfold read_track.
    destruct track as [| | | | |members]; try reflexivity.
    exfalso. now apply (H members).
  - intros members H. unfold read_track. simpl. now rewrite H.
Qed.

Lemma read_track_ok_iff_witness :
  read_track (Scenario.entry "a" "A") = Ok (mkTrack (JStr "a") (JStr "A")) /\
  read_track (JStr "A") = Raise TypeError /\
  read_track (JObj [("name", JStr "A")]) = Raise (KeyError "artist").
Proof.
  destruct read_track_ok_iff as (H1 & H2 & H3).
  split; [|split].
  - apply (proj2 (H1 (Scenario.entry "a" "A") (mkTrack (JStr "a") (JStr "A")))).
    eexists _, _. repeat split; reflexivity.
  - apply (H2 (JStr "A")). discriminate.
  - apply (H3 [("name", JStr "A")]). reflexivity.
Defined.

(** ** Listings that are not lists, entries that are null *)

(** X12.  The value under [toptracks.track] is iterated without a check of its
    type.  When it is a number, a boolean or [null], or a dict or a string
    that is not empty (so also when the service sends a single track as an
    object instead of a list of one), the discovery raises [TypeError] at that
    range, having inserted nothing; an empty dict or string passes for an
    empty listing and discovery goes on with the next range. *)
Theorem get_track_in_not_a_list :
  forall env today uid credentials range ranges st response tracks,
    service env (request_of credentials range) = Ok response ->
    read_response response = Ok tracks ->
    (iterates_entries tracks = false ->
     get_track_in env today (range :: ranges) uid credentials st
     = (Raise TypeError, add_requests [request_of credentials range] st)) /\
    (tracks = JObj [] \/ tracks = JStr "" ->
     get_track_in env today (range :: ranges) uid credentials st
     = get_track_in env today ranges uid credentials
         (add_requests [request_of credentials range] st)).
Proof.
  intros env today uid credentials range ranges st response tracks Hsvc Hread.
  split.
  - intros Hit. simpl. unfold bind, lift, session_get.
    fold (request_of credentials range). rewrite Hsvc, Hread.
    destruct tracks as [| b | z | s | items | members]; try reflexivity.
    + destruct s as [|c s]; [discriminate|]. reflexivity.
    + discriminate.
    + destruct members as [|[k v] members]; [discriminate|]. reflexivity.
  - intros Hempty.
    assert (Hl : listing env credentials range []).
    { exists response, tracks. repeat split; try assumption.
      destruct Hempty as [->| ->]; reflexivity. }
    now rewrite (get_track_in_listing _ _ _ _ _ _ _ _ Hl).
Qed.

Lemma get_track_in_not_a_list_witness :
  get_track_in
    (mkEnv (fun _ => Ok (mkResponse 200
              (Some (JObj [("toptracks", JObj [("track", Scenario.entry "a" "A")])]))))
       (fun _ => None) (fun _ => Ok None) (fun _ => 0) (fun _ => None))
    "2024-05-02" ["7day"; "1month"] 1 Scenario.me Scenario.st
  = (Raise TypeError, add_requests [request_of Scenario.me "7day"] Scenario.st).
Proof.
  apply (proj1 (get_track_in_not_a_list
           (mkEnv (fun _ => Ok (mkResponse 200
                     (Some (JObj [("toptracks", JObj [("track", Scenario.entry "a" "A")])]))))
              (fun _ => None) (fun _ => Ok None) (fun _ => 0) (fun _ => None))
           "2024-05-02" 1 Scenario.me "7day" ["1month"] Scenario.st
           (mkResponse 200
              (Some (JObj [("toptracks", JObj [("track", Scenario.entry "a" "A")])])))
           (Scenario.entry "a" "A") eq_refl eq_refl)).
  reflexivity.
Defined.

Lemma select_track_null d uid a n :
  a = None \/ n = None -> select_track d uid a n = false.
Proof.
  intros H. unfold select_track.
  induction (tracks d) as [|r l IH]; simpl; [reflexivity|].
  rewrite IH, orb_false_r.
  destruct H as [-> | ->]; simpl.
  - now rewrite andb_false_r.
  - now rewrite andb_false_r.
Qed.

(** X13.  A [null] for the artist or the name of an entry is never found in
    the ledger and cannot be stored in it (both columns are NOT NULL): when
    the first entry that is not already seen has one, the scan of the listing
    raises [IntegrityError] and leaves the cog as it was, whatever entries
    follow. *)
Theorem scan_tracks_null_field :
  forall uid today seen_items track rest t a n st,
    Forall (seen (db st) uid) seen_items ->
    read_track track = Ok t ->
    bind_track t = Ok (a, n) ->
    a = None \/ n = None ->
    scan_tracks uid today (seen_items ++ track :: rest) st
    = (Raise IntegrityError, st).
Proof.
  intros uid today seen_items track rest t a n st Hseen Ht Hp Hnull.
  induction Hseen as [|x l (t' & p' & Ht' & Hp' & Hs') _ IH]; simpl app.
  - simpl. unfold bind, lift. rewrite Ht, Hp. simpl.
    rewrite (select_track_null _ _ _ _ Hnull).
    unfold db_insert_track, insert_track.
    destruct Hnull as [-> | ->]; [reflexivity|]. now destruct a.
  - rewrite (scan_tracks_seen _ _ _ _ _ _ _ Ht' Hp' Hs'). exact IH.
Qed.

Lemma scan_tracks_null_field_witness :
  scan_tracks 1 "2024-05-02"
    ([Scenario.entry "a" "A"] ++
     JObj [("artist", JObj [("name", JStr "c")]); ("name", JNull)] ::
     [Scenario.entry "c" "C"])
    Scenario.st
  = (Raise IntegrityError, Scenario.st).
Proof.
  apply (scan_tracks_null_field 1 "2024-05-02" [Scenario.entry "a" "A"]
           (JObj [("artist", JObj [("name", JStr "c")]); ("name", JNull)])
           [Scenario.entry "c" "C"] (mkTrack (JStr "c") JNull) (Some "c") None
           Scenario.st).
  - repeat constructor.
    exists (mkTrack (JStr "a") (JStr "A")), (Some "a", Some "A").
    repeat split; reflexivity.
  - reflexivity.
  - reflexivity.
  - now right.
Defined.

(** ** The sweep, turn by turn *)

(** X16.  The turn that delivers.  For a user with no row of today, when
    discovery returns a track, a user is found and the webhook takes the
    message, the turn ends well and has sent exactly one message, the one
    built from that user and that track, after committing the row; nothing is
    logged.  A user that the bot has cached is the one used: [fetch_user] is
    not asked, whatever it would answer. *)
Theorem daily_body_delivers :
  (forall env today row st t st1 u,
     select_today (db st) (discord_id row) today = false ->
     get_track env today (discord_id row) (credentials_of row) st = (Ok (Some t), st1) ->
     resolve_user env (discord_id row) = Ok (Some u) ->
     webhook_send env (message_for env u t) = None ->
     daily_body env today row st =
     (Ok tt,
      mkState (db st1) (requests st1) (errors st)
        (sent st ++ [(discord_id row, message_for env u t)])))
  /\
  (forall env uid u, get_user env uid = Some u -> resolve_user env uid = Ok (Some u)).
Proof.
  split.
  - intros env today row st t st1 u Hsel Hget Hres Hweb.
    rewrite (daily_body_found _ _ _ _ _ _ Hsel Hget), Hres.
    unfold send. rewrite Hweb.
    apply get_track_in_effect in Hget. destruct Hget as (He & Hm & _).
    now rewrite He, Hm.
  - intros env uid u H. unfold resolve_user. now rewrite H.
Qed.

Lemma daily_body_delivers_witness :
  daily_body Scenario.env "2024-05-02" (mkUserRow 1 "me" "key") Scenario.newcomers =
  (Ok tt,
   mkState
     (db (snd (get_track Scenario.env "2024-05-02" 1 Scenario.me Scenario.newcomers)))
     (requests (snd (get_track Scenario.env "2024-05-02" 1 Scenario.me Scenario.newcomers)))
     (errors Scenario.newcomers)
     (sent Scenario.newcomers ++
      [(1, message_for Scenario.env Scenario.alice (mkTrack (JStr "a") (JStr "A")))])).
Proof.
  apply (proj1 daily_body_delivers Scenario.env "2024-05-02" (mkUserRow 1 "me" "key")
           Scenario.newcomers (mkTrack (JStr "a") (JStr "A"))
           (snd (get_track Scenario.env "2024-05-02" 1 Scenario.me Scenario.newcomers))
           Scenario.alice); reflexivity.
Defined.

(** X15.  The turn that stops the sweep.  When discovery has returned a track
    and then the lookup of the user raises, or the webhook refuses the
    message, the loop ends with that exception at this user: the users after
    them are not visited, no message has been sent, nothing is logged, and the
    row is committed all the same, so that the sweeps of the rest of the day
    skip this user. *)
Theorem daily_loop_stops_when_delivery_fails :
  forall env today row rows st t st1 e,
    select_today (db st) (discord_id row) today = false ->
    get_track env today (discord_id row) (credentials_of row) st = (Ok (Some t), st1) ->
    (resolve_user env (discord_id row) = Raise e \/
     exists u, resolve_user env (discord_id row) = Ok (Some u) /\
               webhook_send env (message_for env u t) = Some e) ->
    daily_loop env today (row :: rows) st = (Raise e, st1) /\
    sent st1 = sent st /\
    errors st1 = errors st /\
    select_today (db st1) (discord_id row) today = true.
Proof.
  intros env today row rows st t st1 e Hsel Hget Hfail.
  pose proof (get_track_in_effect _ _ _ _ _ _ _ _ Hget)
    as (He & Hm & a & n & _ & _ & Hd).
  split; [|split; [exact Hm|split; [exact He|]]].
  - simpl. unfold bind. rewrite (daily_body_found _ _ _ _ _ _ Hsel Hget).
    destruct Hfail as [Hres|(u & Hres & Hweb)]; rewrite Hres.
    + reflexivity.
    + unfold send. now rewrite Hweb.
  - rewrite Hd. apply select_today_add_row.
Qed.

Lemma daily_loop_stops_when_delivery_fails_witness :
  daily_loop Scenario.env "2024-05-02"
    [mkUserRow 0 "ghost" "key0"; mkUserRow 1 "me" "key"] Scenario.newcomers
  = (Raise DiscordError,
     snd (get_track Scenario.env "2024-05-02" 0 (mkCredentials "ghost" "key0")
            Scenario.newcomers)).
Proof.
  apply (daily_loop_stops_when_delivery_fails Scenario.env "2024-05-02"
           (mkUserRow 0 "ghost" "key0") [mkUserRow 1 "me" "key"] Scenario.newcomers
           (mkTrack (JStr "a") (JStr "A"))
           (snd (get_track Scenario.env "2024-05-02" 0 (mkCredentials "ghost" "key0")
                   Scenario.newcomers))
           DiscordError).
  - reflexivity.
  - reflexivity.
  - left. reflexivity.
Defined.

Lemma daily_body_completes env today row st :
  (forall uid, exists o, resolve_user env uid = Ok o) ->
  (forall m, webhook_send env m = None) ->
  exists st', daily_body env today row st = (Ok tt, st').
Proof.
  intros Hres Hweb.
  destruct (select_today (db st) (discord_id row) today) eqn:Hsel.
  { exists st. now apply daily_body_skip. }
  destruct (get_track env today (discord_id row) (credentials_of row) st)
    as [[[t|]|e] st1] eqn:Hget.
  - rewrite (daily_body_found _ _ _ _ _ _ Hsel Hget).
    destruct (Hres (discord_id row)) as (o & ->).
    destruct o as [u|]; [|eauto].
    unfold send. rewrite Hweb. eauto.
  - rewrite (daily_body_none _ _ _ _ _ Hsel Hget). eauto.
  - rewrite (daily_body_raise _ _ _ _ _ _ Hsel Hget). eauto.
Qed.

(** X14.  Nothing the music service does can stop a sweep.  In a world where
    looking a user up never raises and the webhook takes every message, the
    sweep runs to its end for every table of users and every answer of the
    service, be it an HTTP error, garbage, or no answer at all. *)
Theorem daily_task_completes :
  forall env,
    (forall uid, exists o, resolve_user env uid = Ok o) ->
    (forall m, webhook_send env m = None) ->
    forall today st, exists st', daily_task env today st = (Ok tt, st').
Proof.
  intros env Hres Hweb today st. unfold daily_task.
  generalize (users (db st)) as rows. intros rows. revert st.
  induction rows as [|row rows IH]; intros st; simpl.
  - now exists st.
  - unfold bind.
    destruct (daily_body_completes env today row st Hres Hweb) as (st1 & ->).
    apply IH.
Qed.

Lemma daily_task_completes_witness :
  exists st',
    daily_task
      (mkEnv (fun _ => Raise ClientError) (fun _ => None) (fun _ => Ok None)
         (fun _ => 0) (fun _ => None))
      "2024-05-02" Scenario.newcomers = (Ok tt, st').
Proof.
  apply (daily_task_completes
           (mkEnv (fun _ => Raise ClientError) (fun _ => None) (fun _ => Ok None)
              (fun _ => 0) (fun _ => None))).
  - intros uid. exists None. reflexivity.
  - intros m. reflexivity.
Defined.

(** ** What a sweep costs *)

Lemma in_firstn {A} (x : A) k l : In x (firstn k l) -> In x l.
Proof.
  revert l. induction k as [|k IH]; intros [|y l]; simpl; try tauto.
  intros [H|H]; [now left | right; now apply IH].
Qed.

Lemma daily_body_requests env today row st r st' :
  daily_body env today row st = (r, st') ->
  exists k,
    (k <= 6)%nat /\
    (select_today (db st) (discord_id row) today = true -> k = 0%nat) /\
    requests st' = requests st ++
                   map (request_of (credentials_of row)) (firstn k TIME_RANGES).
Proof.
  intros H.
  destruct (select_today (db st) (discord_id row) today) eqn:Hsel.
  { rewrite daily_body_skip in H by exact Hsel. inversion H; subst.
    exists 0%nat. simpl. rewrite app_nil_r. repeat split. lia. }
  destruct (get_track env today (discord_id row) (credentials_of row) st)
    as [r1 st1] eqn:Hget.
  destruct (get_track_in_requests _ _ _ _ _ _ _ _ Hget) as (k & Hk & _ & Hreq).
  exists k. split; [exact Hk|]. split; [discriminate|].
  destruct r1 as [[t|]|e].
  - rewrite (daily_body_found _ _ _ _ _ _ Hsel Hget) in H.
    destruct (resolve_user env (discord_id row)) as [[u|]|e];
      try (inversion H; subst; exact Hreq).
    unfold send in H. destruct (webhook_send env _); inversion H; subst; exact Hreq.
  - rewrite (daily_body_none _ _ _ _ _ Hsel Hget) in H. inversion H; subst. exact Hreq.
  - rewrite (daily_body_raise _ _ _ _ _ _ Hsel Hget) in H. inversion H; subst. exact Hreq.
Qed.

(** The request is one the cog makes for a user of [rows]: that user's
    stored username and key, one of the six periods. *)
Lemma daily_loop_requests env today rows :
  forall st r st',
    daily_loop env today rows st = (r, st') ->
    exists rqs,
      requests st' = requests st ++ rqs /\
      (List.length rqs <= 6 * List.length rows)%nat /\
      Forall (fun rq =>
                In (period rq) TIME_RANGES /\
                exists row, In row rows /\
                            req_user rq = lfm_username row /\
                            req_api_key rq = lfm_api_key row) rqs.
Proof.
  induction rows as [|row rows IH]; intros st r st' H; simpl in H.
  - inversion H; subst. exists []. rewrite app_nil_r. repeat split; [simpl; lia | constructor].
  - unfold bind in H.
    destruct (daily_body env today row st) as [r1 st1] eqn:Hbody.
    destruct (daily_body_requests _ _ _ _ _ _ Hbody) as (k & Hk & _ & Hreq).
    assert (Hmine : Forall (fun rq =>
                In (period rq) TIME_RANGES /\
                exists row', In row' (row :: rows) /\
                             req_user rq = lfm_username row' /\
                             req_api_key rq = lfm_api_key row')
              (map (request_of (credentials_of row)) (firstn k TIME_RANGES))).
    { apply Forall_forall. intros rq Hin. apply in_map_iff in Hin.
      destruct Hin as (p & <- & Hp). split.
      - change (In p TIME_RANGES). eapply in_firstn; exact Hp.
      - exists row. simpl. auto. }
    assert (Hlen : (List.length (map (request_of (credentials_of row))
                                   (firstn k TIME_RANGES)) <= 6)%nat).
    { rewrite length_map, length_firstn. simpl. lia. }
    destruct r1 as [[]|e].
    + apply IH in H. destruct H as (rqs & Hrq & Hl & Hall).
      exists (map (request_of (credentials_of row)) (firstn k TIME_RANGES) ++ rqs).
      split; [now rewrite Hrq, Hreq, app_assoc|]. split.
      * rewrite length_app. simpl List.length. lia.
      * apply Forall_app. split; [exact Hmine|].
        eapply Forall_impl; [|exact Hall].
        intros rq (Hp & row' & Hin & Hu & Hk'). split; [exact Hp|].
        exists row'. split; [now right | auto].
    + inversion H; subst.
      exists (map (request_of (credentials_of row)) (firstn k TIME_RANGES)).
      split; [exact Hreq|]. split; [simpl List.length; lia | exact Hmine].
Qed.

(** X17.  A sweep asks the service only on behalf of registered users: every
    request it adds carries the username and the key of a row of [users] and
    one of the six periods, and there are at most six of them per registered
    user. *)
Theorem daily_task_requests :
  forall env today st r st',
    daily_task env today st = (r, st') ->
    exists rqs,
      requests st' = requests st ++ rqs /\
      (List.length rqs <= 6 * List.length (users (db st)))%nat /\
      Forall (fun rq =>
                In (period rq) TIME_RANGES /\
                exists row, In row (users (db st)) /\
                            req_user rq = lfm_username row /\
                            req_api_key rq = lfm_api_key row) rqs.
Proof.
  intros env today st r st' H. unfold daily_task in H.
  now apply daily_loop_requests in H.
Qed.

Lemma daily_task_requests_witness :
  exists rqs,
    requests (snd (daily_task Scenario.env "2024-05-02" Scenario.newcomers))
    = requests Scenario.newcomers ++ rqs /\
    (List.length rqs <= 6 * List.length (users (db Scenario.newcomers)))%nat /\
    Forall (fun rq =>
              In (period rq) TIME_RANGES /\
              exists row, In row (users (db Scenario.newcomers)) /\
                          req_user rq = lfm_username row /\
                          req_api_key rq = lfm_api_key row) rqs.
Proof.
  apply (daily_task_requests Scenario.env "2024-05-02" Scenario.newcomers
           (fst (daily_task Scenario.env "2024-05-02" Scenario.newcomers))).
  reflexivity.
Defined.

Lemma daily_body_counts env today row st r st' :
  daily_body env today row st = (r, st') ->
  (List.length (tracks (db st')) + List.length (errors st')
   <= List.length (tracks (db st)) + List.length (errors st) + 1)%nat /\
  (List.length (tracks (db st)) <= List.length (tracks (db st')))%nat /\
  (List.length (errors st) <= List.length (errors st'))%nat /\
  (List.length (sent st) <= List.length (sent st'))%nat /\
  (List.length (sent st') + List.length (tracks (db st))
   <= List.length (sent st) + List.length (tracks (db st')))%nat.
Proof.
  intros H.
  destruct (select_today (db st) (discord_id row) today) eqn:Hsel.
  { rewrite daily_body_skip in H by exact Hsel. inversion H; subst. lia. }
  destruct (get_track env today (discord_id row) (credentials_of row) st)
    as [[[t|]|e] st1] eqn:Hget;
    pose proof (get_track_in_effect _ _ _ _ _ _ _ _ Hget) as (He & Hm & Hd).
  - destruct Hd as (a & n & _ & _ & Hd).
    assert (Ht : List.length (tracks (db st1)) = S (List.length (tracks (db st))))
      by (rewrite Hd; simpl; rewrite length_app; simpl; lia).
    rewrite (daily_body_found _ _ _ _ _ _ Hsel Hget) in H.
    destruct (resolve_user env (discord_id row)) as [[u|]|e'];
      try (inversion H; subst; rewrite Ht, He, Hm; lia).
    unfold send in H. destruct (webhook_send env _); inversion H; subst; simpl.
    + rewrite Ht, He, Hm. lia.
    + rewrite Ht, He, Hm, length_app. simpl. lia.
  - rewrite (daily_body_none _ _ _ _ _ Hsel Hget) in H. inversion H; subst.
    rewrite Hd, He, Hm. lia.
  - rewrite (daily_body_raise _ _ _ _ _ _ Hsel Hget) in H. inversion H; subst.
    simpl. rewrite Hd, He, Hm, length_app. simpl. lia.
Qed.

(** X18.  What a sweep can add.  Each user accounts for at most one thing: a
    new row or a logged error, never both, so rows and errors together grow
    by no more than the number of registered users; and a message is only
    sent after a row was added, so the sweep sends no more messages than it
    adds rows. *)
Theorem daily_task_growth :
  forall env today st r st',
    daily_task env today st = (r, st') ->
    (List.length (tracks (db st')) + List.length (errors st')
     <= List.length (tracks (db st)) + List.length (errors st)
        + List.length (users (db st)))%nat /\
    (List.length (sent st') + List.length (tracks (db st))
     <= List.length (sent st) + List.length (tracks (db st')))%nat.
Proof.
  intros env today st r st' H. unfold daily_task in H.
  revert H. generalize (users (db st)) as rows. intros rows. revert st r st'.
  assert (Hgen : forall st r st',
    daily_loop env today rows st = (r, st') ->
    (List.length (tracks (db st')) + List.length (errors st')
     <= List.length (tracks (db st)) + List.length (errors st) + List.length rows)%nat /\
    (List.length (tracks (db st)) <= List.length (tracks (db st')))%nat /\
    (List.length (errors st) <= List.length (errors st'))%nat /\
    (List.length (sent st) <= List.length (sent st'))%nat /\
    (List.length (sent st') + List.length (tracks (db st))
     <= List.length (sent st) + List.length (tracks (db st')))%nat).
  { induction rows as [|row rows IH]; intros st r st' H; simpl in H.
    - inversion H; subst. simpl. lia.
    - unfold bind in H.
      destruct (daily_body env today row st) as [r1 st1] eqn:Hbody.
      apply daily_body_counts in Hbody.
      destruct r1 as [[]|e].
      + apply IH in H. simpl List.length. lia.
      + inversion H; subst. simpl List.length. lia. }
  intros st r st' H. apply Hgen in H. lia.
Qed.

Lemma daily_task_growth_witness :
  (List.length (sent (snd (daily_task Scenario.env "2024-05-02" Scenario.newcomers)))
   + List.length (tracks (db Scenario.newcomers))
   <= List.length (sent Scenario.newcomers)
      + List.length (tracks (db (snd (daily_task Scenario.env "2024-05-02"
                                        Scenario.newcomers)))))%nat.
Proof.
  apply (daily_task_growth Scenario.env "2024-05-02" Scenario.newcomers
           (fst (daily_task Scenario.env "2024-05-02" Scenario.newcomers))).
  reflexivity.
Defined.

(** ** The message *)

(** X20.  The message for a track whose artist and name are strings: its
    title reads "name by artist", its link searches for "name artist", it is
    signed "Daily Music - " and the user's global name, which reads "None"
    for a user who has none; its colour is the user's accent colour, or,
    without one, the colour drawn from the user's id. *)
Theorem message_for_text :
  forall env u a n,
    render (title (embed (message_for env u (mkTrack (JStr a) (JStr n)))))
    = Some (n ++ " by " ++ a)%string /\
    map (fun q => (fst q, render (snd q)))
      (query (url (embed (message_for env u (mkTrack (JStr a) (JStr n))))))
    = [("search_query", Some (n ++ " " ++ a)%string)] /\
    render (sender (message_for env u (mkTrack (JStr a) (JStr n))))
    = Some ("Daily Music - " ++
            match global_name u with Some g => g | None => "None" end)%string /\
    colour (embed (message_for env u (mkTrack (JStr a) (JStr n))))
    = match accent_color u with
      | Some c => c
      | None => random_colour env (id u)
      end.
Proof.
  intros env u a n. simpl. rewrite !append_empty_r.
  repeat split. destruct (global_name u); simpl; [|reflexivity].
  now rewrite append_empty_r.
Qed.

(** ** Who a sweep writes about *)

Lemma select_today_extends st st' uid today :
  extends st st' ->
  select_today (db st) uid today = true ->
  select_today (db st') uid today = true.
Proof.
  intros (added & H) Hs. unfold select_today in *.
  rewrite H, existsb_app, Hs. reflexivity.
Qed.

Lemma select_today_before st st' uid today :
  extends st st' ->
  select_today (db st') uid today = false ->
  select_today (db st) uid today = false.
Proof.
  intros Hx Hf. destruct (select_today (db st) uid today) eqn:Hs; [|reflexivity].
  rewrite (select_today_extends _ _ _ _ Hx Hs) in Hf. discriminate.
Qed.

Lemma daily_body_marks env today row st r st' :
  daily_body env today row st = (r, st') ->
  (errors st' = errors st \/
   exists e, errors st' = errors st ++ [(discord_id row, e)] /\
             select_today (db st) (discord_id row) today = false) /\
  (sent st' = sent st \/
   exists u t, sent st' = sent st ++ [(discord_id row, message_for env u t)] /\
               resolve_user env (discord_id row) = Ok (Some u) /\
               select_today (db st) (discord_id row) today = false /\
               select_today (db st') (discord_id row) today = true).
Proof.
  intros H.
  destruct (select_today (db st) (discord_id row) today) eqn:Hsel.
  { rewrite daily_body_skip in H by exact Hsel. inversion H; subst. auto. }
  destruct (get_track env today (discord_id row) (credentials_of row) st)
    as [[[t|]|e] st1] eqn:Hget;
    pose proof (get_track_in_effect _ _ _ _ _ _ _ _ Hget) as (He & Hm & Hd).
  - destruct Hd as (a & n & _ & _ & Hd).
    assert (Hrow : select_today (db st1) (discord_id row) today = true)
      by (rewrite Hd; apply select_today_add_row).
    rewrite (daily_body_found _ _ _ _ _ _ Hsel Hget) in H.
    destruct (resolve_user env (discord_id row)) as [[u|]|e'] eqn:Hres;
      try (inversion H; subst; auto).
    unfold send in H. destruct (webhook_send env _); inversion H; subst; simpl; auto.
    split; [auto|]. right. exists u, t. rewrite Hm. auto.
  - rewrite (daily_body_none _ _ _ _ _ Hsel Hget) in H. inversion H; subst. auto.
  - rewrite (daily_body_raise _ _ _ _ _ _ Hsel Hget) in H. inversion H; subst.
    simpl. split; [|auto]. right. exists e. rewrite He. auto.
Qed.

Lemma daily_loop_marks env today rows :
  forall st r st',
    daily_loop env today rows st = (r, st') ->
    (exists errs,
       errors st' = errors st ++ errs /\
       Forall (fun p => In (fst p) (map discord_id rows) /\
                        select_today (db st) (fst p) today = false) errs) /\
    (exists msgs,
       sent st' = sent st ++ msgs /\
       Forall (fun p => In (fst p) (map discord_id rows) /\
                        select_today (db st) (fst p) today = false /\
                        select_today (db st') (fst p) today = true /\
                        exists u t, resolve_user env (fst p) = Ok (Some u) /\
                                    snd p = message_for env u t) msgs).
Proof.
  induction rows as [|row rows IH]; intros st r st' H; simpl in H.
  - inversion H; subst. split; exists []; rewrite app_nil_r; auto.
  - unfold bind in H.
    destruct (daily_body env today row st) as [r1 st1] eqn:Hbody.
    pose proof (daily_body_extends _ _ _ _ _ _ Hbody) as Hx1.
    pose proof (daily_body_marks _ _ _ _ _ _ Hbody) as (Herr & Hmsg).
    assert (Hrest : exists r2, daily_loop env today
                                 (match r1 with Ok _ => rows | Raise _ => [] end) st1
                               = (r2, st')).
    { destruct r1 as [[]|e]; [exists r; exact H|].
      inversion H; subst. exists (Ok tt). reflexivity. }
    destruct Hrest as (r2 & Hrest).
    pose proof (daily_loop_extends _ _ _ _ _ _ Hrest) as (Hx2 & _).
    assert (Hsub : forall x, In x (map discord_id
                     (match r1 with Ok _ => rows | Raise _ => [] end)) ->
                   In x (map discord_id (row :: rows))).
    { intros x Hin. destruct r1; [now right | destruct Hin]. }
    assert (IH' : forall st r st',
      daily_loop env today (match r1 with Ok _ => rows | Raise _ => [] end) st = (r, st') ->
      (exists errs,
         errors st' = errors st ++ errs /\
         Forall (fun p => In (fst p) (map discord_id
                            (match r1 with Ok _ => rows | Raise _ => [] end)) /\
                          select_today (db st) (fst p) today = false) errs) /\
      (exists msgs,
         sent st' = sent st ++ msgs /\
         Forall (fun p => In (fst p) (map discord_id
                            (match r1 with Ok _ => rows | Raise _ => [] end)) /\
                          select_today (db st) (fst p) today = false /\
                          select_today (db st') (fst p) today = true /\
                          exists u t, resolve_user env (fst p) = Ok (Some u) /\
                                      snd p = message_for env u t) msgs)).
    { destruct r1; [exact IH|].
      intros s0 r0 s0' H0. simpl in H0. inversion H0; subst.
      split; exists []; rewrite app_nil_r; auto. }
    destruct (IH' _ _ _ Hrest) as ((errs & Herrs & Ferrs) & (msgs & Hmsgs & Fmsgs)).
    split.
    + assert (Ferrs' : Forall (fun p => In (fst p) (map discord_id (row :: rows)) /\
                                        select_today (db st) (fst p) today = false) errs).
      { eapply Forall_impl; [|exact Ferrs]. intros p (Hin & Hf).
        split; [now apply Hsub | eapply select_today_before; eassumption]. }
      destruct Herr as [Herr|(e & Herr & Hf)].
      * exists errs. split; [congruence | exact Ferrs'].
      * exists ((discord_id row, e) :: errs). split.
        -- rewrite Herrs, Herr, <- app_assoc. reflexivity.
        -- constructor; [|exact Ferrs']. simpl. auto.
    + assert (Fmsgs' : Forall (fun p => In (fst p) (map discord_id (row :: rows)) /\
                          select_today (db st) (fst p) today = false /\
                          select_today (db st') (fst p) today = true /\
                          exists u t, resolve_user env (fst p) = Ok (Some u) /\
                                      snd p = message_for env u t) msgs).
      { eapply Forall_impl; [|exact Fmsgs]. intros p (Hin & Hf & Ht & Hu).
        repeat split; [now apply Hsub | eapply select_today_before; eassumption
                      | exact Ht | exact Hu]. }
      destruct Hmsg as [Hmsg|(u & t & Hmsg & Hres & Hf & Ht)].
      * exists msgs. split; [congruence | exact Fmsgs'].
      * exists ((discord_id row, message_for env u t) :: msgs). split.
        -- rewrite Hmsgs, Hmsg, <- app_assoc. reflexivity.
        -- constructor; [|exact Fmsgs']. simpl.
           repeat split; auto.
           ++ eapply select_today_extends; eassumption.
           ++ eauto.
Qed.

(** X21.  Who a sweep writes about.  Every error it logs and every message it
    sends is for a registered user who had no row of today when the sweep
    began.  A user it sends a message for was found by the lookup, the
    message is the one built for that user and a track, and the user has a
    row of today when the sweep is over. *)
Theorem daily_task_marks :
  forall env today st r st',
    daily_task env today st = (r, st') ->
    (exists errs,
       errors st' = errors st ++ errs /\
       Forall (fun p => In (fst p) (map discord_id (users (db st))) /\
                        select_today (db st) (fst p) today = false) errs) /\
    (exists msgs,
       sent st' = sent st ++ msgs /\
       Forall (fun p => In (fst p) (map discord_id (users (db st))) /\
                        select_today (db st) (fst p) today = false /\
                        select_today (db st') (fst p) today = true /\
                        exists u t, resolve_user env (fst p) = Ok (Some u) /\
                                    snd p = message_for env u t) msgs).
Proof.
  intros env today st r st' H. unfold daily_task in H.
  now apply daily_loop_marks in H.
Qed.

Lemma daily_task_marks_witness :
  exists errs,
    errors (snd (daily_task Scenario.env "2024-05-02" Scenario.newcomers))
    = errors Scenario.newcomers ++ errs /\
    Forall (fun p => In (fst p) (map discord_id (users (db Scenario.newcomers))) /\
                     select_today (db Scenario.newcomers) (fst p) "2024-05-02" = false)
      errs.
Proof.
  apply (daily_task_marks Scenario.env "2024-05-02" Scenario.newcomers
           (fst (daily_task Scenario.env "2024-05-02" Scenario.newcomers))
           (snd (daily_task Scenario.env "2024-05-02" Scenario.newcomers))).
  reflexivity.
Defined.
